(** * jj-mcp-server: argument builders and the subprocess invoker

    A shallow embedding of [src/index.ts].  The server registers a fixed set
    of tools; every handler turns its validated parameter object into the
    token list of one [jj] command line and hands it to [runJJCommand],
    which runs the program and folds every outcome into one text.

    - JavaScript strings are sequences of UTF-16 code units ([jsstring]).
    - A parameter object is read through its properties ([Params]); a
      property that is absent reads as [JUndefined], as destructuring does.
    - [await] either yields a value or throws; this is [Completion], and
      [try_catch] is the [try { } catch (error) { }] statement. *)

From Stdlib Require Import List NArith ZArith Bool Lia.
From Stdlib Require Import Strings.Byte Strings.Ascii.
From Stdlib Require DecimalPos.
Import ListNotations.

(** ** JavaScript strings *)

(** A string is its list of UTF-16 code units. *)
Definition jsstring := list N.

(** The shape of a literal, for the notation below. *)
Inductive units := UEmpty | UChar (c : N) (s : units).

Fixpoint units_of_bytes (bs : list Byte.byte) : option units :=
  match bs with
  | [] => Some UEmpty
  | b :: rest =>
      let c := N_of_ascii (ascii_of_byte b) in
      if (c <? 128)%N then option_map (UChar c) (units_of_bytes rest) else None
  end.

Fixpoint bytes_of_units (s : units) : option (list Byte.byte) :=
  match s with
  | UEmpty => Some []
  | UChar c rest =>
      if (c <? 128)%N
      then option_map (cons (byte_of_ascii (ascii_of_N c))) (bytes_of_units rest)
      else None
  end.

(** A literal in [js_scope] denotes the code units of its ASCII text. *)
Declare Scope js_scope.
Delimit Scope js_scope with js.
Set Warnings "-via-type-remapping,-via-type-mismatch".
String Notation jsstring units_of_bytes bytes_of_units
  (via units mapping [[nil] => UEmpty, [cons] => UChar]) : js_scope.
Set Warnings "via-type-remapping,via-type-mismatch".
Open Scope js_scope.
Open Scope list_scope.

(** Code units that ECMAScript calls WhiteSpace or LineTerminator; these
    are the ones [String.prototype.trim] strips. *)
Definition isWhiteSpace (c : N) : bool :=
  existsb (N.eqb c)
    [ 0x0009; 0x000A; 0x000B; 0x000C; 0x000D; 0x0020; 0x00A0; 0x1680;
      0x2000; 0x2001; 0x2002; 0x2003; 0x2004; 0x2005; 0x2006; 0x2007;
      0x2008; 0x2009; 0x200A; 0x2028; 0x2029; 0x202F; 0x205F; 0x3000;
      0xFEFF ]%N.

Fixpoint trimStart (s : jsstring) : jsstring :=
  match s with
  | [] => []
  | c :: rest => if isWhiteSpace c then trimStart rest else s
  end.

Definition trimEnd (s : jsstring) : jsstring := rev (trimStart (rev s)).

(** [s.trim()] *)
Definition trim (s : jsstring) : jsstring := trimEnd (trimStart s).

(** *** Numbers as text

    The numbers that reach a handler are the integers [z.number().int()]
    lets through: the integer-valued doubles.  A number is written [n : Z],
    its exact value; an [n] that no double holds stands for the double
    nearest to it, the Number that the literal [n] is read as. *)

Fixpoint digits (u : Decimal.uint) : jsstring :=
  match u with
  | Decimal.Nil => []
  | Decimal.D0 r => 48%N :: digits r
  | Decimal.D1 r => 49%N :: digits r
  | Decimal.D2 r => 50%N :: digits r
  | Decimal.D3 r => 51%N :: digits r
  | Decimal.D4 r => 52%N :: digits r
  | Decimal.D5 r => 53%N :: digits r
  | Decimal.D6 r => 54%N :: digits r
  | Decimal.D7 r => 55%N :: digits r
  | Decimal.D8 r => 56%N :: digits r
  | Decimal.D9 r => 57%N :: digits r
  end.

(** The decimal digits of an integer, with a minus sign below zero. *)
Definition decimal (n : Z) : jsstring :=
  match Z.to_int n with
  | Decimal.Pos u => digits u
  | Decimal.Neg u => 45%N :: digits u
  end.

(** A double holds an integer [a > 0] as [m * 2 ^ e] with [m] below
    [2 ^ 53]; [binary_exponent a] is that [e], zero up to [2 ^ 53]. *)
Definition binary_exponent (a : Z) : Z := Z.max 0 (Z.log2 a - 52).

(** The integers that are Number values: at most 53 significant bits, and
    below [2 ^ 1024]. *)
Definition representable (n : Z) : bool :=
  let a := Z.abs n in
  (a mod 2 ^ binary_exponent a =? 0)%Z && (Z.log2 a <? 1024)%Z.

(** The double nearest to the integer [a > 0], ties going to the even
    significand; a representable [a] is its own. *)
Definition to_double (a : Z) : Z :=
  let e := binary_exponent a in
  if (e =? 0)%Z then a
  else
    let m := (a / 2 ^ e)%Z in
    let rest := (a mod 2 ^ e)%Z in
    let half := (2 ^ (e - 1))%Z in
    if (rest <? half)%Z then (m * 2 ^ e)%Z
    else if (half <? rest)%Z then ((m + 1) * 2 ^ e)%Z
    else if Z.even m then (m * 2 ^ e)%Z else ((m + 1) * 2 ^ e)%Z.

(** [rounds_to a y]: the integer [y], read as a decimal literal, is the
    Number [a] (round to nearest, ties to the even significand).  Written
    for [a > 0] representable. *)
Definition rounds_to (a y : Z) : bool :=
  let e := binary_exponent a in
  let m := (a / 2 ^ e)%Z in
  if (e =? 0)%Z then (y =? a)%Z
  else
    let above := (2 ^ e)%Z in
    let below := if (m =? 2 ^ 52)%Z then (2 ^ (e - 1))%Z else (2 ^ e)%Z in
    let twice_off := (2 * y - 2 * a)%Z in
    if Z.even m
    then (- below <=? twice_off)%Z && (twice_off <=? above)%Z
    else (- below <? twice_off)%Z && (twice_off <? above)%Z.

(** The integer with the fewest significant digits that still reads back
    as [a]; of two with equally few, the nearer one, and the one with the
    even last digit when they are equally near.  [places] is the number of
    decimal digits of [a], and [k] the number of significant digits
    tried. *)
Fixpoint shortest_from (a places : Z) (k : nat) (fuel : nat) : Z :=
  match fuel with
  | O => a
  | S fuel' =>
      let unit := (10 ^ (places - Z.of_nat k))%Z in
      let lower := (a / unit * unit)%Z in
      let upper := (lower + unit)%Z in
      match rounds_to a lower, rounds_to a upper with
      | true, false => lower
      | false, true => upper
      | true, true =>
          if (a - lower <? upper - a)%Z then lower
          else if (upper - a <? a - lower)%Z then upper
          else if Z.even (a / unit) then lower else upper
      | false, false => shortest_from a places (S k) fuel'
      end
  end.

Definition shortest (a : Z) : Z :=
  let places := Z.of_nat (length (decimal a)) in
  shortest_from a places 1 (Nat.min 17 (Z.to_nat places)).

Fixpoint drop_zeros (s : jsstring) : jsstring :=
  match s with
  | [] => []
  | c :: rest => if (c =? 48)%N then drop_zeros rest else s
  end.

(** The text of a Number [a > 0]: its shortest digits, written out in full
    up to 21 places and as [d.ddde+x] beyond. *)
Definition number_text (a : Z) : jsstring :=
  let all := decimal (shortest (to_double a)) in
  let places := length all in
  if (places <=? 21)%nat then all
  else
    match rev (drop_zeros (rev all)) with
    | [] => all
    | first :: rest =>
        first :: match rest with [] => [] | _ :: _ => "." ++ rest end
          ++ "e+" ++ decimal (Z.of_nat (places - 1))
    end.

(** [n.toString()] for an integer-valued Number. *)
Definition toString (n : Z) : jsstring :=
  match n with
  | Z0 => "0"
  | Zpos _ => number_text n
  | Zneg _ => "-" ++ number_text (- n)
  end.

(** ** Completions: a value, or a thrown error object *)

(** What the [catch] clause reads of the error thrown by the awaited
    [execFileAsync]: [error.message], and [error.stderr], which
    [util.promisify] copies from the callback and which is absent on errors
    raised before the child is started. *)
Record ExecError := {
  message : jsstring;
  stderr : option jsstring
}.

Inductive Completion (A : Type) : Type :=
| Return (a : A)
| Throw (error : ExecError).

Arguments Return {A} a.
Arguments Throw {A} error.

Definition bind {A B : Type} (c : Completion A) (k : A -> Completion B) : Completion B :=
  match c with
  | Return a => k a
  | Throw e => Throw e
  end.

Definition try_catch {A : Type} (body : Completion A) (handler : ExecError -> Completion A)
  : Completion A :=
  match body with
  | Return a => Return a
  | Throw e => handler e
  end.

Notation "x <- c ;; k" := (bind c (fun x => k))
  (at level 61, c at next level, right associativity).

(** The value [execFileAsync] resolves to. *)
Record ExecResult := {
  stdout : jsstring;
  stdout_stderr : jsstring
}.

Definition JJ_COMMAND : jsstring := "jj".

(** ** The subprocess invoker *)

Section Invoker.

(** [execFileAsync(file, args, { cwd })], awaited.  Node fulfils the
    promise with the captured output when the child exits with status zero,
    and rejects it on every other outcome: a non-zero status, a signal, a
    child that could not be started, or output beyond the buffer Node
    captures it in.  The function is a parameter: the results below hold
    for every behaviour of the subprocess. *)
Variable execFileAsync :
  jsstring -> list jsstring -> option jsstring -> Completion ExecResult.

(** [if (error.stderr)] holds for a string that is not empty; an absent
    [stderr] and the empty string both fall through to [error.message]. *)
Definition runJJCommand (args : list jsstring) (cwd : option jsstring)
  : Completion jsstring :=
  try_catch
    (result <- execFileAsync JJ_COMMAND args cwd ;;
     Return (trim (stdout result)))
    (fun error =>
       match stderr error with
       | Some (c :: text) => Return ("Error: " ++ trim (c :: text))
       | Some [] | None => Return ("Error: " ++ message error)
       end).

End Invoker.

(** ** Parameter objects *)

(** The property names the handlers destructure. *)
Module Param.

Inductive t :=
| repoPath | cwd | source | destination | message | parents | revisions
| limit | name | revision | names | template | oldName | newName
| remoteBookmark | from | to | context | stat | remoteName | colocate
| depth | remote | branches | gitRepo | bookmarks | all | tracked
| deleted | allowNew | url | patch | path | mode | paths | keepEmptied
| operation | includeDefaults | includeOverridden | user | repo | value
| resetAuthor | author.

Definition eq_dec (a b : t) : {a = b} + {a <> b}.
Proof. decide equality. Defined.

Definition eqb (a b : t) : bool := if eq_dec a b then true else false.

End Param.

(** The values a validated parameter can hold.  Numbers are the integers
    that [z.number().int()] lets through, each written as its exact value
    (see [representable]). *)
Inductive JsValue :=
| JUndefined
| JString (s : jsstring)
| JNumber (n : Z)
| JBoolean (b : bool)
| JArray (elements : list jsstring).

(** A parameter object, read by property name. *)
Definition Params := Param.t -> JsValue.

(** The object literal [{ k1: v1, ..., kn: vn }]. *)
Fixpoint object (fields : list (Param.t * JsValue)) : Params :=
  fun k =>
    match fields with
    | [] => JUndefined
    | (k', v) :: rest => if Param.eq_dec k k' then v else object rest k
    end.

(** [{ ...p, k: v }] *)
Definition with_param (k : Param.t) (v : JsValue) (p : Params) : Params :=
  fun k' => if Param.eq_dec k' k then v else p k'.

(** [if (v)]: ToBoolean. *)
Definition truthy (v : JsValue) : bool :=
  match v with
  | JUndefined => false
  | JString [] => false
  | JString (_ :: _) => true
  | JNumber n => negb (n =? 0)%Z
  | JBoolean b => b
  | JArray _ => true
  end.

(** [v !== undefined] *)
Definition defined (v : JsValue) : bool :=
  match v with
  | JUndefined => false
  | _ => true
  end.

(** Reads at the static type the handler's signature gives a parameter
    ([string], [string[]], [number]); schema validation runs before the
    handler and guarantees the value has that type. *)
Definition str (v : JsValue) : jsstring :=
  match v with JString s => s | _ => [] end.

Definition spread (v : JsValue) : list jsstring :=
  match v with JArray l => l | _ => [] end.

Definition num (v : JsValue) : Z :=
  match v with JNumber n => n | _ => 0%Z end.

Definition optional_str (v : JsValue) : option jsstring :=
  match v with JString s => Some s | _ => None end.

(** ** Schemas *)

Inductive ZodType :=
| z_string
| z_number_int_positive
| z_number_int_nonnegative
| z_boolean
| z_array_string
| z_enum (options : list jsstring)
| z_optional (inner : ZodType).

Definition jsstring_eqb (a b : jsstring) : bool :=
  if list_eq_dec N.eq_dec a b then true else false.

Fixpoint conforms (ty : ZodType) (v : JsValue) : bool :=
  match ty, v with
  | z_string, JString _ => true
  | z_number_int_positive, JNumber n => (0 <? n)%Z
  | z_number_int_nonnegative, JNumber n => (0 <=? n)%Z
  | z_boolean, JBoolean _ => true
  | z_array_string, JArray _ => true
  | z_enum options, JString s => existsb (jsstring_eqb s) options
  | z_optional _, JUndefined => true
  | z_optional inner, _ => conforms inner v
  | _, _ => false
  end.

(** ** Handlers *)

(** What a handler passes to [runJJCommand(args, cwd)]. *)
Record Invocation := {
  call_args : list jsstring;
  call_cwd : option jsstring
}.

(** [args.push(t1, ..., tn)] *)
Definition push (args : list jsstring) (tokens : list jsstring) : list jsstring :=
  args ++ tokens.

Definition run (args : list jsstring) (cwd : JsValue) : Invocation :=
  {| call_args := args; call_cwd := optional_str cwd |}.

Definition status_handler (p : Params) : Invocation :=
  let repoPath := p Param.repoPath in
  let cwd := p Param.cwd in
  let args := ["status"] in
  let args := if truthy repoPath then push args ["--repository"; str repoPath] else args in
  run args cwd.

Definition rebase_handler (p : Params) : Invocation :=
  let source := p Param.source in
  let destination := p Param.destination in
  let repoPath := p Param.repoPath in
  let cwd := p Param.cwd in
  let args := ["rebase"; "--source"; str source; "--destination"; str destination] in
  let args := if truthy repoPath then push args ["--repository"; str repoPath] else args in
  run args cwd.

Definition commit_handler (p : Params) : Invocation :=
  let message := p Param.message in
  let repoPath := p Param.repoPath in
  let cwd := p Param.cwd in
  let args := ["commit"; "-m"; str message] in
  let args := if truthy repoPath then push args ["--repository"; str repoPath] else args in
  run args cwd.

Definition new_handler (p : Params) : Invocation :=
  let parents := p Param.parents in
  let repoPath := p Param.repoPath in
  let cwd := p Param.cwd in
  let args := ["new"] in
  let args := if truthy parents then push args ["--parents"; str parents] else args in
  let args := if truthy repoPath then push args ["--repository"; str repoPath] else args in
  run args cwd.

Definition abandon_handler (p : Params) : Invocation :=
  let revisions := p Param.revisions in
  let repoPath := p Param.repoPath in
  let cwd := p Param.cwd in
  let args := ["abandon"; str revisions] in
  let args := if truthy repoPath then push args ["--repository"; str repoPath] else args in
  run args cwd.

Definition log_handler (p : Params) : Invocation :=
  let repoPath := p Param.repoPath in
  let cwd := p Param.cwd in
  let limit := p Param.limit in
  let args := ["log"] in
  let args := if truthy repoPath then push args ["--repository"; str repoPath] else args in
  let args := if defined limit then push args ["-n"; toString (num limit)] else args in
  run args cwd.

Definition bookmark_create_handler (p : Params) : Invocation :=
  let name := p Param.name in
  let revision := p Param.revision in
  let repoPath := p Param.repoPath in
  let cwd := p Param.cwd in
  let args := ["bookmark"; "create"; str name] in
  let args := if truthy revision then push args ["-r"; str revision] else args in
  let args := if truthy repoPath then push args ["--repository"; str repoPath] else args in
  run args cwd.

Definition bookmark_delete_handler (p : Params) : Invocation :=
  let names := p Param.names in
  let repoPath := p Param.repoPath in
  let cwd := p Param.cwd in
  let args := ["bookmark"; "delete"] ++ spread names in
  let args := if truthy repoPath then push args ["--repository"; str repoPath] else args in
  run args cwd.

Definition bookmark_forget_handler (p : Params) : Invocation :=
  let names := p Param.names in
  let repoPath := p Param.repoPath in
  let cwd := p Param.cwd in
  let args := ["bookmark"; "forget"] ++ spread names in
  let args := if truthy repoPath then push args ["--repository"; str repoPath] else args in
  run args cwd.

Definition bookmark_list_handler (p : Params) : Invocation :=
  let repoPath := p Param.repoPath in
  let cwd := p Param.cwd in
  let template := p Param.template in
  let args := ["bookmark"; "list"] in
  let args := if truthy repoPath then push args ["--repository"; str repoPath] else args in
  let args := if truthy template then push args ["-T"; str template] else args in
  run args cwd.

Definition bookmark_move_handler (p : Params) : Invocation :=
  let names := p Param.names in
  let revision := p Param.revision in
  let repoPath := p Param.repoPath in
  let cwd := p Param.cwd in
  let args := ["bookmark"; "move"] ++ spread names ++ ["-t"; str revision] in
  let args := if truthy repoPath then push args ["--repository"; str repoPath] else args in
  run args cwd.

Definition bookmark_rename_handler (p : Params) : Invocation :=
  let oldName := p Param.oldName in
  let newName := p Param.newName in
  let repoPath := p Param.repoPath in
  let cwd := p Param.cwd in
  let args := ["bookmark"; "rename"; str oldName; str newName] in
  let args := if truthy repoPath then push args ["--repository"; str repoPath] else args in
  run args cwd.

Definition bookmark_set_handler (p : Params) : Invocation :=
  let name := p Param.name in
  let revision := p Param.revision in
  let repoPath := p Param.repoPath in
  let cwd := p Param.cwd in
  let args := ["bookmark"; "set"; str name; "-r"; str revision] in
  let args := if truthy repoPath then push args ["--repository"; str repoPath] else args in
  run args cwd.

Definition bookmark_track_handler (p : Params) : Invocation :=
  let remoteBookmark := p Param.remoteBookmark in
  let repoPath := p Param.repoPath in
  let cwd := p Param.cwd in
  let args := ["bookmark"; "track"; str remoteBookmark] in
  let args := if truthy repoPath then push args ["--repository"; str repoPath] else args in
  run args cwd.

Definition bookmark_untrack_handler (p : Params) : Invocation :=
  let remoteBookmark := p Param.remoteBookmark in
  let repoPath := p Param.repoPath in
  let cwd := p Param.cwd in
  let args := ["bookmark"; "untrack"; str remoteBookmark] in
  let args := if truthy repoPath then push args ["--repository"; str repoPath] else args in
  run args cwd.

Definition diff_handler (p : Params) : Invocation :=
  let from := p Param.from in
  let to := p Param.to in
  let repoPath := p Param.repoPath in
  let cwd := p Param.cwd in
  let context := p Param.context in
  let stat := p Param.stat in
  let args := ["diff"] in
  let args := if truthy from then push args ["-f"; str from] else args in
  let args := if truthy to then push args ["-t"; str to] else args in
  let args := if truthy repoPath then push args ["--repository"; str repoPath] else args in
  let args := if defined context then push args ["--context"; toString (num context)] else args in
  let args := if truthy stat then push args ["--stat"] else args in
  run args cwd.

(** [git-clone] and [init] take no [cwd]: they call [runJJCommand(args)]. *)
Definition git_clone_handler (p : Params) : Invocation :=
  let source := p Param.source in
  let destination := p Param.destination in
  let remoteName := p Param.remoteName in
  let colocate := p Param.colocate in
  let depth := p Param.depth in
  let args := ["git"; "clone"; str source] in
  let args := if truthy destination then push args [str destination] else args in
  let args := if truthy remoteName then push args ["--remote"; str remoteName] else args in
  let args := if truthy colocate then push args ["--colocate"] else args in
  let args := if truthy depth then push args ["--depth"; toString (num depth)] else args in
  run args JUndefined.

Definition git_export_handler (p : Params) : Invocation :=
  let repoPath := p Param.repoPath in
  let cwd := p Param.cwd in
  let args := ["git"; "export"] in
  let args := if truthy repoPath then push args ["--repository"; str repoPath] else args in
  run args cwd.

Definition git_fetch_handler (p : Params) : Invocation :=
  let remote := p Param.remote in
  let repoPath := p Param.repoPath in
  let cwd := p Param.cwd in
  let branches := p Param.branches in
  let args := ["git"; "fetch"] in
  let args := if truthy remote then push args ["--remote"; str remote] else args in
  let args := if truthy repoPath then push args ["--repository"; str repoPath] else args in
  let args := if truthy branches then push args ("--branch" :: spread branches) else args in
  run args cwd.

Definition git_import_handler (p : Params) : Invocation :=
  let repoPath := p Param.repoPath in
  let cwd := p Param.cwd in
  let args := ["git"; "import"] in
  let args := if truthy repoPath then push args ["--repository"; str repoPath] else args in
  run args cwd.

Definition init_handler (p : Params) : Invocation :=
  let destination := p Param.destination in
  let colocate := p Param.colocate in
  let gitRepo := p Param.gitRepo in
  let args := ["git"; "init"] in
  let args := if truthy destination then push args [str destination] else args in
  let args := if truthy colocate then push args ["--colocate"] else args in
  let args := if truthy gitRepo then push args ["--git-repo"; str gitRepo] else args in
  run args JUndefined.

Definition git_push_handler (p : Params) : Invocation :=
  let remote := p Param.remote in
  let bookmarks := p Param.bookmarks in
  let all := p Param.all in
  let tracked := p Param.tracked in
  let deleted := p Param.deleted in
  let allowNew := p Param.allowNew in
  let repoPath := p Param.repoPath in
  let cwd := p Param.cwd in
  let args := ["git"; "push"] in
  let args := if truthy remote then push args ["--remote"; str remote] else args in
  let args := if truthy bookmarks then push args ("--bookmark" :: spread bookmarks) else args in
  let args := if truthy all then push args ["--all"] else args in
  let args := if truthy tracked then push args ["--tracked"] else args in
  let args := if truthy deleted then push args ["--deleted"] else args in
  let args := if truthy allowNew then push args ["--allow-new"] else args in
  let args := if truthy repoPath then push args ["--repository"; str repoPath] else args in
  run args cwd.

Definition git_remote_add_handler (p : Params) : Invocation :=
  let name := p Param.name in
  let url := p Param.url in
  let repoPath := p Param.repoPath in
  let cwd := p Param.cwd in
  let args := ["git"; "remote"; "add"; str name; str url] in
  let args := if truthy repoPath then push args ["--repository"; str repoPath] else args in
  run args cwd.

Definition git_remote_list_handler (p : Params) : Invocation :=
  let repoPath := p Param.repoPath in
  let cwd := p Param.cwd in
  let args := ["git"; "remote"; "list"] in
  let args := if truthy repoPath then push args ["--repository"; str repoPath] else args in
  run args cwd.

Definition git_remote_remove_handler (p : Params) : Invocation :=
  let name := p Param.name in
  let repoPath := p Param.repoPath in
  let cwd := p Param.cwd in
  let args := ["git"; "remote"; "remove"; str name] in
  let args := if truthy repoPath then push args ["--repository"; str repoPath] else args in
  run args cwd.

Definition git_remote_rename_handler (p : Params) : Invocation :=
  let oldName := p Param.oldName in
  let newName := p Param.newName in
  let repoPath := p Param.repoPath in
  let cwd := p Param.cwd in
  let args := ["git"; "remote"; "rename"; str oldName; str newName] in
  let args := if truthy repoPath then push args ["--repository"; str repoPath] else args in
  run args cwd.

Definition git_remote_set_url_handler (p : Params) : Invocation :=
  let name := p Param.name in
  let url := p Param.url in
  let repoPath := p Param.repoPath in
  let cwd := p Param.cwd in
  let args := ["git"; "remote"; "set-url"; str name; str url] in
  let args := if truthy repoPath then push args ["--repository"; str repoPath] else args in
  run args cwd.

Definition git_root_handler (p : Params) : Invocation :=
  let repoPath := p Param.repoPath in
  let cwd := p Param.cwd in
  let args := ["git"; "root"] in
  let args := if truthy repoPath then push args ["--repository"; str repoPath] else args in
  run args cwd.

Definition show_handler (p : Params) : Invocation :=
  let revision := p Param.revision in
  let repoPath := p Param.repoPath in
  let cwd := p Param.cwd in
  let context := p Param.context in
  let args := ["show"] in
  let args := if truthy revision then push args ["-r"; str revision] else args in
  let args := if truthy repoPath then push args ["--repository"; str repoPath] else args in
  let args := if defined context then push args ["--context"; toString (num context)] else args in
  run args cwd.

Definition revert_handler (p : Params) : Invocation :=
  let revisions := p Param.revisions in
  let destination := p Param.destination in
  let repoPath := p Param.repoPath in
  let cwd := p Param.cwd in
  let args := ["revert"] in
  let args := if truthy destination then push args ["-d"; str destination] else args in
  let args := push args (spread revisions) in
  let args := if truthy repoPath then push args ["--repository"; str repoPath] else args in
  run args cwd.

Definition restore_handler (p : Params) : Invocation :=
  let source := p Param.source in
  let destination := p Param.destination in
  let paths := p Param.paths in
  let repoPath := p Param.repoPath in
  let cwd := p Param.cwd in
  let args := ["restore"] in
  let args := if truthy source then push args ["-f"; str source] else args in
  let args := if truthy destination then push args ["-t"; str destination] else args in
  let args := push args (spread paths) in
  let args := if truthy repoPath then push args ["--repository"; str repoPath] else args in
  run args cwd.

Definition interdiff_handler (p : Params) : Invocation :=
  let from := p Param.from in
  let to := p Param.to in
  let repoPath := p Param.repoPath in
  let cwd := p Param.cwd in
  let context := p Param.context in
  let args := ["interdiff"; "-f"; str from; "-t"; str to] in
  let args := if truthy repoPath then push args ["--repository"; str repoPath] else args in
  let args := if defined context then push args ["--context"; toString (num context)] else args in
  run args cwd.

Definition evolog_handler (p : Params) : Invocation :=
  let revision := p Param.revision in
  let repoPath := p Param.repoPath in
  let cwd := p Param.cwd in
  let limit := p Param.limit in
  let patch := p Param.patch in
  let args := ["evolog"] in
  let args := if truthy revision then push args ["-r"; str revision] else args in
  let args := if truthy repoPath then push args ["--repository"; str repoPath] else args in
  let args := if truthy limit then push args ["-n"; toString (num limit)] else args in
  let args := if truthy patch then push args ["-p"] else args in
  run args cwd.

Definition edit_handler (p : Params) : Invocation :=
  let revision := p Param.revision in
  let repoPath := p Param.repoPath in
  let cwd := p Param.cwd in
  let args := ["edit"; str revision] in
  let args := if truthy repoPath then push args ["--repository"; str repoPath] else args in
  run args cwd.

Definition file_annotate_handler (p : Params) : Invocation :=
  let path := p Param.path in
  let revision := p Param.revision in
  let repoPath := p Param.repoPath in
  let cwd := p Param.cwd in
  let args := ["file"; "annotate"] in
  let args := if truthy revision then push args ["-r"; str revision] else args in
  let args := push args [str path] in
  let args := if truthy repoPath then push args ["--repository"; str repoPath] else args in
  run args cwd.

Definition file_chmod_handler (p : Params) : Invocation :=
  let mode := p Param.mode in
  let paths := p Param.paths in
  let revision := p Param.revision in
  let repoPath := p Param.repoPath in
  let cwd := p Param.cwd in
  let args := ["file"; "chmod"] in
  let args := if truthy revision then push args ["-r"; str revision] else args in
  let args := push args [str mode] in
  let args := push args (spread paths) in
  let args := if truthy repoPath then push args ["--repository"; str repoPath] else args in
  run args cwd.

Definition file_list_handler (p : Params) : Invocation :=
  let revision := p Param.revision in
  let paths := p Param.paths in
  let repoPath := p Param.repoPath in
  let cwd := p Param.cwd in
  let args := ["file"; "list"] in
  let args := if truthy revision then push args ["-r"; str revision] else args in
  let args := if truthy paths then push args (spread paths) else args in
  let args := if truthy repoPath then push args ["--repository"; str repoPath] else args in
  run args cwd.

Definition file_show_handler (p : Params) : Invocation :=
  let paths := p Param.paths in
  let revision := p Param.revision in
  let repoPath := p Param.repoPath in
  let cwd := p Param.cwd in
  let args := ["file"; "show"] in
  let args := if truthy revision then push args ["-r"; str revision] else args in
  let args := push args (spread paths) in
  let args := if truthy repoPath then push args ["--repository"; str repoPath] else args in
  run args cwd.

Definition file_track_handler (p : Params) : Invocation :=
  let paths := p Param.paths in
  let repoPath := p Param.repoPath in
  let cwd := p Param.cwd in
  let args := ["file"; "track"] ++ spread paths in
  let args := if truthy repoPath then push args ["--repository"; str repoPath] else args in
  run args cwd.

Definition file_untrack_handler (p : Params) : Invocation :=
  let paths := p Param.paths in
  let repoPath := p Param.repoPath in
  let cwd := p Param.cwd in
  let args := ["file"; "untrack"] ++ spread paths in
  let args := if truthy repoPath then push args ["--repository"; str repoPath] else args in
  run args cwd.

Definition squash_handler (p : Params) : Invocation :=
  let source := p Param.source in
  let destination := p Param.destination in
  let paths := p Param.paths in
  let keepEmptied := p Param.keepEmptied in
  let repoPath := p Param.repoPath in
  let cwd := p Param.cwd in
  let args := ["squash"] in
  let args := if truthy source then push args ["-f"; str source] else args in
  let args := if truthy destination then push args ["-t"; str destination] else args in
  let args := if truthy paths then push args (spread paths) else args in
  let args := if truthy keepEmptied then push args ["-k"] else args in
  let args := if truthy repoPath then push args ["--repository"; str repoPath] else args in
  run args cwd.

Definition workspace_root_handler (p : Params) : Invocation :=
  let repoPath := p Param.repoPath in
  let cwd := p Param.cwd in
  let args := ["workspace"; "root"] in
  let args := if truthy repoPath then push args ["--repository"; str repoPath] else args in
  run args cwd.

Definition operation_abandon_handler (p : Params) : Invocation :=
  let operation := p Param.operation in
  let repoPath := p Param.repoPath in
  let cwd := p Param.cwd in
  let args := ["operation"; "abandon"; str operation] in
  let args := if truthy repoPath then push args ["--repository"; str repoPath] else args in
  run args cwd.

Definition operation_diff_handler (p : Params) : Invocation :=
  let from := p Param.from in
  let to := p Param.to in
  let repoPath := p Param.repoPath in
  let cwd := p Param.cwd in
  let context := p Param.context in
  let args := ["operation"; "diff"] in
  let args := if truthy from then push args ["-f"; str from] else args in
  let args := if truthy to then push args ["-t"; str to] else args in
  let args := if truthy repoPath then push args ["--repository"; str repoPath] else args in
  let args := if defined context then push args ["--context"; toString (num context)] else args in
  run args cwd.

Definition operation_log_handler (p : Params) : Invocation :=
  let limit := p Param.limit in
  let repoPath := p Param.repoPath in
  let cwd := p Param.cwd in
  let args := ["operation"; "log"] in
  let args := if truthy limit then push args ["-n"; toString (num limit)] else args in
  let args := if truthy repoPath then push args ["--repository"; str repoPath] else args in
  run args cwd.

Definition operation_restore_handler (p : Params) : Invocation :=
  let operation := p Param.operation in
  let repoPath := p Param.repoPath in
  let cwd := p Param.cwd in
  let args := ["operation"; "restore"; str operation] in
  let args := if truthy repoPath then push args ["--repository"; str repoPath] else args in
  run args cwd.

Definition operation_show_handler (p : Params) : Invocation :=
  let operation := p Param.operation in
  let repoPath := p Param.repoPath in
  let cwd := p Param.cwd in
  let args := ["operation"; "show"] in
  let args := if truthy operation then push args [str operation] else args in
  let args := if truthy repoPath then push args ["--repository"; str repoPath] else args in
  run args cwd.

Definition operation_undo_handler (p : Params) : Invocation :=
  let operation := p Param.operation in
  let repoPath := p Param.repoPath in
  let cwd := p Param.cwd in
  let args := ["operation"; "undo"] in
  let args := if truthy operation then push args [str operation] else args in
  let args := if truthy repoPath then push args ["--repository"; str repoPath] else args in
  run args cwd.

Definition config_get_handler (p : Params) : Invocation :=
  let name := p Param.name in
  let repoPath := p Param.repoPath in
  let cwd := p Param.cwd in
  let args := ["config"; "get"; str name] in
  let args := if truthy repoPath then push args ["--repository"; str repoPath] else args in
  run args cwd.

Definition config_list_handler (p : Params) : Invocation :=
  let name := p Param.name in
  let includeDefaults := p Param.includeDefaults in
  let includeOverridden := p Param.includeOverridden in
  let user := p Param.user in
  let repo := p Param.repo in
  let repoPath := p Param.repoPath in
  let cwd := p Param.cwd in
  let args := ["config"; "list"] in
  let args := if truthy name then push args [str name] else args in
  let args := if truthy includeDefaults then push args ["--include-defaults"] else args in
  let args := if truthy includeOverridden then push args ["--include-overridden"] else args in
  let args := if truthy user then push args ["--user"] else args in
  let args := if truthy repo then push args ["--repo"] else args in
  let args := if truthy repoPath then push args ["--repository"; str repoPath] else args in
  run args cwd.

Definition config_set_handler (p : Params) : Invocation :=
  let name := p Param.name in
  let value := p Param.value in
  let user := p Param.user in
  let repo := p Param.repo in
  let repoPath := p Param.repoPath in
  let cwd := p Param.cwd in
  let args := ["config"; "set"] in
  let args := if truthy user then push args ["--user"] else args in
  let args := if truthy repo then push args ["--repo"] else args in
  let args := push args [str name; str value] in
  let args := if truthy repoPath then push args ["--repository"; str repoPath] else args in
  run args cwd.

Definition config_unset_handler (p : Params) : Invocation :=
  let name := p Param.name in
  let user := p Param.user in
  let repo := p Param.repo in
  let repoPath := p Param.repoPath in
  let cwd := p Param.cwd in
  let args := ["config"; "unset"] in
  let args := if truthy user then push args ["--user"] else args in
  let args := if truthy repo then push args ["--repo"] else args in
  let args := push args [str name] in
  let args := if truthy repoPath then push args ["--repository"; str repoPath] else args in
  run args cwd.

Definition config_path_handler (p : Params) : Invocation :=
  let user := p Param.user in
  let repo := p Param.repo in
  let repoPath := p Param.repoPath in
  let cwd := p Param.cwd in
  let args := ["config"; "path"] in
  let args := if truthy user then push args ["--user"] else args in
  let args := if truthy repo then push args ["--repo"] else args in
  let args := if truthy repoPath then push args ["--repository"; str repoPath] else args in
  run args cwd.

Definition tag_list_handler (p : Params) : Invocation :=
  let names := p Param.names in
  let repoPath := p Param.repoPath in
  let cwd := p Param.cwd in
  let template := p Param.template in
  let args := ["tag"; "list"] in
  let args := if truthy names then push args (spread names) else args in
  let args := if truthy repoPath then push args ["--repository"; str repoPath] else args in
  let args := if truthy template then push args ["-T"; str template] else args in
  run args cwd.

Definition describe_handler (p : Params) : Invocation :=
  let message := p Param.message in
  let revisions := p Param.revisions in
  let resetAuthor := p Param.resetAuthor in
  let author := p Param.author in
  let repoPath := p Param.repoPath in
  let cwd := p Param.cwd in
  let args := ["describe"] in
  let args := if truthy repoPath then push args ["--repository"; str repoPath] else args in
  let args := push args ["-m"; str message] in
  let args := if truthy resetAuthor then push args ["--reset-author"] else args in
  let args := if truthy author then push args ["--author"; str author] else args in
  let args := if truthy revisions then push args [str revisions] else args in
  run args cwd.

(** ** The tool registry *)

(** One constructor per [server.tool(...)] registration, in source order. *)
Module Tool.

Inductive t :=
| status | rebase | commit | new | abandon | log
| bookmark_create | bookmark_delete | bookmark_forget | bookmark_list
| bookmark_move | bookmark_rename | bookmark_set | bookmark_track
| bookmark_untrack
| diff | git_clone | git_export | git_fetch | git_import | init | git_push
| git_remote_add | git_remote_list | git_remote_remove | git_remote_rename
| git_remote_set_url | git_root
| show | revert | restore | interdiff | evolog | edit
| file_annotate | file_chmod | file_list | file_show | file_track
| file_untrack
| squash | workspace_root
| operation_abandon | operation_diff | operation_log | operation_restore
| operation_show | operation_undo
| config_get | config_list | config_set | config_unset | config_path
| tag_list | describe.

End Tool.

(** The name each tool is registered under. *)
Definition tool_name (t : Tool.t) : jsstring :=
  match t with
  | Tool.status => "status"
  | Tool.rebase => "rebase"
  | Tool.commit => "commit"
  | Tool.new => "new"
  | Tool.abandon => "abandon"
  | Tool.log => "log"
  | Tool.bookmark_create => "bookmark-create"
  | Tool.bookmark_delete => "bookmark-delete"
  | Tool.bookmark_forget => "bookmark-forget"
  | Tool.bookmark_list => "bookmark-list"
  | Tool.bookmark_move => "bookmark-move"
  | Tool.bookmark_rename => "bookmark-rename"
  | Tool.bookmark_set => "bookmark-set"
  | Tool.bookmark_track => "bookmark-track"
  | Tool.bookmark_untrack => "bookmark-untrack"
  | Tool.diff => "diff"
  | Tool.git_clone => "git-clone"
  | Tool.git_export => "git-export"
  | Tool.git_fetch => "git-fetch"
  | Tool.git_import => "git-import"
  | Tool.init => "init"
  | Tool.git_push => "git-push"
  | Tool.git_remote_add => "git-remote-add"
  | Tool.git_remote_list => "git-remote-list"
  | Tool.git_remote_remove => "git-remote-remove"
  | Tool.git_remote_rename => "git-remote-rename"
  | Tool.git_remote_set_url => "git-remote-set-url"
  | Tool.git_root => "git-root"
  | Tool.show => "show"
  | Tool.revert => "revert"
  | Tool.restore => "restore"
  | Tool.interdiff => "interdiff"
  | Tool.evolog => "evolog"
  | Tool.edit => "edit"
  | Tool.file_annotate => "file-annotate"
  | Tool.file_chmod => "file-chmod"
  | Tool.file_list => "file-list"
  | Tool.file_show => "file-show"
  | Tool.file_track => "file-track"
  | Tool.file_untrack => "file-untrack"
  | Tool.squash => "squash"
  | Tool.workspace_root => "workspace-root"
  | Tool.operation_abandon => "operation-abandon"
  | Tool.operation_diff => "operation-diff"
  | Tool.operation_log => "operation-log"
  | Tool.operation_restore => "operation-restore"
  | Tool.operation_show => "operation-show"
  | Tool.operation_undo => "operation-undo"
  | Tool.config_get => "config-get"
  | Tool.config_list => "config-list"
  | Tool.config_set => "config-set"
  | Tool.config_unset => "config-unset"
  | Tool.config_path => "config-path"
  | Tool.tag_list => "tag-list"
  | Tool.describe => "describe"
  end.

(** The handler registered for each tool. *)
Definition handler (t : Tool.t) : Params -> Invocation :=
  match t with
  | Tool.status => status_handler
  | Tool.rebase => rebase_handler
  | Tool.commit => commit_handler
  | Tool.new => new_handler
  | Tool.abandon => abandon_handler
  | Tool.log => log_handler
  | Tool.bookmark_create => bookmark_create_handler
  | Tool.bookmark_delete => bookmark_delete_handler
  | Tool.bookmark_forget => bookmark_forget_handler
  | Tool.bookmark_list => bookmark_list_handler
  | Tool.bookmark_move => bookmark_move_handler
  | Tool.bookmark_rename => bookmark_rename_handler
  | Tool.bookmark_set => bookmark_set_handler
  | Tool.bookmark_track => bookmark_track_handler
  | Tool.bookmark_untrack => bookmark_untrack_handler
  | Tool.diff => diff_handler
  | Tool.git_clone => git_clone_handler
  | Tool.git_export => git_export_handler
  | Tool.git_fetch => git_fetch_handler
  | Tool.git_import => git_import_handler
  | Tool.init => init_handler
  | Tool.git_push => git_push_handler
  | Tool.git_remote_add => git_remote_add_handler
  | Tool.git_remote_list => git_remote_list_handler
  | Tool.git_remote_remove => git_remote_remove_handler
  | Tool.git_remote_rename => git_remote_rename_handler
  | Tool.git_remote_set_url => git_remote_set_url_handler
  | Tool.git_root => git_root_handler
  | Tool.show => show_handler
  | Tool.revert => revert_handler
  | Tool.restore => restore_handler
  | Tool.interdiff => interdiff_handler
  | Tool.evolog => evolog_handler
  | Tool.edit => edit_handler
  | Tool.file_annotate => file_annotate_handler
  | Tool.file_chmod => file_chmod_handler
  | Tool.file_list => file_list_handler
  | Tool.file_show => file_show_handler
  | Tool.file_track => file_track_handler
  | Tool.file_untrack => file_untrack_handler
  | Tool.squash => squash_handler
  | Tool.workspace_root => workspace_root_handler
  | Tool.operation_abandon => operation_abandon_handler
  | Tool.operation_diff => operation_diff_handler
  | Tool.operation_log => operation_log_handler
  | Tool.operation_restore => operation_restore_handler
  | Tool.operation_show => operation_show_handler
  | Tool.operation_undo => operation_undo_handler
  | Tool.config_get => config_get_handler
  | Tool.config_list => config_list_handler
  | Tool.config_set => config_set_handler
  | Tool.config_unset => config_unset_handler
  | Tool.config_path => config_path_handler
  | Tool.tag_list => tag_list_handler
  | Tool.describe => describe_handler
  end.

(** The argument list a tool builds from a parameter object. *)
Definition args_of (t : Tool.t) (p : Params) : list jsstring :=
  call_args (handler t p).

(** The schema each tool is registered with, in source order. *)
Definition schema (t : Tool.t) : list (Param.t * ZodType) :=
  let repoPath_cwd :=
    [(Param.repoPath, z_optional z_string); (Param.cwd, z_optional z_string)] in
  match t with
  | Tool.status | Tool.git_export | Tool.git_import | Tool.git_remote_list
  | Tool.git_root | Tool.workspace_root =>
      repoPath_cwd
  | Tool.rebase =>
      (Param.source, z_string) :: (Param.destination, z_string) :: repoPath_cwd
  | Tool.commit =>
      (Param.message, z_string) :: repoPath_cwd
  | Tool.new =>
      (Param.parents, z_optional z_string) :: repoPath_cwd
  | Tool.abandon =>
      (Param.revisions, z_string) :: repoPath_cwd
  | Tool.log =>
      repoPath_cwd ++ [(Param.limit, z_optional z_number_int_positive)]
  | Tool.bookmark_create =>
      (Param.name, z_string) :: (Param.revision, z_optional z_string) :: repoPath_cwd
  | Tool.bookmark_delete | Tool.bookmark_forget =>
      (Param.names, z_array_string) :: repoPath_cwd
  | Tool.bookmark_list =>
      repoPath_cwd ++ [(Param.template, z_optional z_string)]
  | Tool.bookmark_move =>
      (Param.names, z_array_string) :: (Param.revision, z_string) :: repoPath_cwd
  | Tool.bookmark_rename | Tool.git_remote_rename =>
      (Param.oldName, z_string) :: (Param.newName, z_string) :: repoPath_cwd
  | Tool.bookmark_set =>
      (Param.name, z_string) :: (Param.revision, z_string) :: repoPath_cwd
  | Tool.bookmark_track | Tool.bookmark_untrack =>
      (Param.remoteBookmark, z_string) :: repoPath_cwd
  | Tool.diff =>
      (Param.from, z_optional z_string) :: (Param.to, z_optional z_string)
      :: repoPath_cwd
      ++ [(Param.context, z_optional z_number_int_nonnegative);
          (Param.stat, z_optional z_boolean)]
  | Tool.git_clone =>
      [(Param.source, z_string);
       (Param.destination, z_optional z_string);
       (Param.remoteName, z_optional z_string);
       (Param.colocate, z_optional z_boolean);
       (Param.depth, z_optional z_number_int_positive)]
  | Tool.git_fetch =>
      (Param.remote, z_optional z_string) :: repoPath_cwd
      ++ [(Param.branches, z_optional z_array_string)]
  | Tool.init =>
      [(Param.destination, z_optional z_string);
       (Param.colocate, z_optional z_boolean);
       (Param.gitRepo, z_optional z_string)]
  | Tool.git_push =>
      [(Param.remote, z_optional z_string);
       (Param.bookmarks, z_optional z_array_string);
       (Param.all, z_optional z_boolean);
       (Param.tracked, z_optional z_boolean);
       (Param.deleted, z_optional z_boolean);
       (Param.allowNew, z_optional z_boolean)]
      ++ repoPath_cwd
  | Tool.git_remote_add | Tool.git_remote_set_url =>
      (Param.name, z_string) :: (Param.url, z_string) :: repoPath_cwd
  | Tool.git_remote_remove | Tool.config_get =>
      (Param.name, z_string) :: repoPath_cwd
  | Tool.show =>
      (Param.revision, z_optional z_string) :: repoPath_cwd
      ++ [(Param.context, z_optional z_number_int_nonnegative)]
  | Tool.revert =>
      (Param.revisions, z_array_string) :: (Param.destination, z_optional z_string)
      :: repoPath_cwd
  | Tool.restore =>
      (Param.source, z_optional z_string) :: (Param.destination, z_optional z_string)
      :: (Param.paths, z_array_string) :: repoPath_cwd
  | Tool.interdiff =>
      (Param.from, z_string) :: (Param.to, z_string) :: repoPath_cwd
      ++ [(Param.context, z_optional z_number_int_nonnegative)]
  | Tool.evolog =>
      (Param.revision, z_optional z_string) :: repoPath_cwd
      ++ [(Param.limit, z_optional z_number_int_positive);
          (Param.patch, z_optional z_boolean)]
  | Tool.edit =>
      (Param.revision, z_string) :: repoPath_cwd
  | Tool.file_annotate =>
      (Param.path, z_string) :: (Param.revision, z_optional z_string) :: repoPath_cwd
  | Tool.file_chmod =>
      (Param.mode, z_enum ["x"; "n"]) :: (Param.paths, z_array_string)
      :: (Param.revision, z_optional z_string) :: repoPath_cwd
  | Tool.file_list =>
      (Param.revision, z_optional z_string)
      :: (Param.paths, z_optional z_array_string) :: repoPath_cwd
  | Tool.file_show =>
      (Param.paths, z_array_string) :: (Param.revision, z_optional z_string)
      :: repoPath_cwd
  | Tool.file_track | Tool.file_untrack =>
      (Param.paths, z_array_string) :: repoPath_cwd
  | Tool.squash =>
      (Param.source, z_optional z_string) :: (Param.destination, z_optional z_string)
      :: (Param.paths, z_optional z_array_string)
      :: (Param.keepEmptied, z_optional z_boolean) :: repoPath_cwd
  | Tool.operation_abandon | Tool.operation_restore =>
      (Param.operation, z_string) :: repoPath_cwd
  | Tool.operation_diff =>
      (Param.from, z_optional z_string) :: (Param.to, z_optional z_string)
      :: repoPath_cwd
      ++ [(Param.context, z_optional z_number_int_nonnegative)]
  | Tool.operation_log =>
      (Param.limit, z_optional z_number_int_positive) :: repoPath_cwd
  | Tool.operation_show | Tool.operation_undo =>
      (Param.operation, z_optional z_string) :: repoPath_cwd
  | Tool.config_list =>
      [(Param.name, z_optional z_string);
       (Param.includeDefaults, z_optional z_boolean);
       (Param.includeOverridden, z_optional z_boolean);
       (Param.user, z_optional z_boolean);
       (Param.repo, z_optional z_boolean)]
      ++ repoPath_cwd
  | Tool.config_set =>
      (Param.name, z_string) :: (Param.value, z_string)
      :: (Param.user, z_optional z_boolean) :: (Param.repo, z_optional z_boolean)
      :: repoPath_cwd
  | Tool.config_unset =>
      (Param.name, z_string)
      :: (Param.user, z_optional z_boolean) :: (Param.repo, z_optional z_boolean)
      :: repoPath_cwd
  | Tool.config_path =>
      (Param.user, z_optional z_boolean) :: (Param.repo, z_optional z_boolean)
      :: repoPath_cwd
  | Tool.tag_list =>
      (Param.names, z_optional z_array_string) :: repoPath_cwd
      ++ [(Param.template, z_optional z_string)]
  | Tool.describe =>
      [(Param.message, z_string);
       (Param.revisions, z_optional z_string);
       (Param.resetAuthor, z_optional z_boolean);
       (Param.author, z_optional z_string)]
      ++ repoPath_cwd
  end.

(** The object passes the tool's schema. *)
Definition accepts (t : Tool.t) (p : Params) : bool :=
  forallb (fun field => conforms (snd field) (p (fst field))) (schema t).

Definition is_optional (ty : ZodType) : bool :=
  match ty with z_optional _ => true | _ => false end.

(** The parameters a tool declares with [.optional()]. *)
Definition optional_params (t : Tool.t) : list Param.t :=
  map fst (filter (fun field => is_optional (snd field)) (schema t)).

(** ** The invocation path of every handler *)

Record TextContent := {
  type : jsstring;
  text : jsstring
}.

Record CallToolResult := {
  content : list TextContent
}.

Section Dispatch.

Variable execFileAsync :
  jsstring -> list jsstring -> option jsstring -> Completion ExecResult.

(** [const output = await runJJCommand(args, cwd);
    return { content: [{ type: "text", text: output }] };] *)
Definition call_tool (t : Tool.t) (p : Params) : Completion CallToolResult :=
  let invocation := handler t p in
  output <- runJJCommand execFileAsync (call_args invocation) (call_cwd invocation) ;;
  Return {| content := [ {| type := "text"; text := output |} ] |}.

End Dispatch.

(** ** A declarative description of the argument lists

    Every handler pushes, after the fixed subcommand tokens, one group of
    tokens per parameter, in a fixed order.  [slots] lists the groups of each
    tool; [args_of_layout] below proves that the handlers build exactly
    what the table describes. *)

Inductive Slot :=
| Positional (k : Param.t)                       (* push(k), unconditionally *)
| FlagValue (flag : jsstring) (k : Param.t)      (* push(flag, k), unconditionally *)
| Positionals (k : Param.t)                      (* push(...k), unconditionally *)
| OptPositional (k : Param.t)                    (* if (k) push(k) *)
| OptFlagValue (flag : jsstring) (k : Param.t)   (* if (k) push(flag, k) *)
| OptFlag (flag : jsstring) (k : Param.t)        (* if (k) push(flag) *)
| OptFlagNumber (flag : jsstring) (k : Param.t)  (* if (k) push(flag, k.toString()) *)
| OptFlagNumberDefined (flag : jsstring) (k : Param.t)
                                 (* if (k !== undefined) push(flag, k.toString()) *)
| OptFlagValues (flag : jsstring) (k : Param.t)  (* if (k) push(flag, ...k) *)
| OptPositionals (k : Param.t).                  (* if (k) push(...k) *)

Definition slot_param (s : Slot) : Param.t :=
  match s with
  | Positional k | FlagValue _ k | Positionals k | OptPositional k
  | OptFlagValue _ k | OptFlag _ k | OptFlagNumber _ k
  | OptFlagNumberDefined _ k | OptFlagValues _ k | OptPositionals k => k
  end.

Definition slot_mandatory (s : Slot) : bool :=
  match s with
  | Positional _ | FlagValue _ _ | Positionals _ => true
  | _ => false
  end.

(** The flag token a slot pushes when its parameter is optional. *)
Definition slot_optional_flag (s : Slot) : list jsstring :=
  match s with
  | OptFlagValue flag _ | OptFlag flag _ | OptFlagNumber flag _
  | OptFlagNumberDefined flag _ | OptFlagValues flag _ => [flag]
  | _ => []
  end.

(** The tokens a slot contributes, given the value [v] of its parameter. *)
Definition slot_tokens_of (s : Slot) (v : JsValue) : list jsstring :=
  match s with
  | Positional _ => [str v]
  | FlagValue flag _ => [flag; str v]
  | Positionals _ => spread v
  | OptPositional _ => if truthy v then [str v] else []
  | OptFlagValue flag _ => if truthy v then [flag; str v] else []
  | OptFlag flag _ => if truthy v then [flag] else []
  | OptFlagNumber flag _ => if truthy v then [flag; toString (num v)] else []
  | OptFlagNumberDefined flag _ => if defined v then [flag; toString (num v)] else []
  | OptFlagValues flag _ => if truthy v then flag :: spread v else []
  | OptPositionals _ => if truthy v then spread v else []
  end.

Definition slot_tokens (p : Params) (s : Slot) : list jsstring :=
  slot_tokens_of s (p (slot_param s)).

Definition render (l : list Slot) (p : Params) : list jsstring :=
  flat_map (slot_tokens p) l.

(** The values the caller supplied for a mandatory slot. *)
Definition slot_values (p : Params) (s : Slot) : list jsstring :=
  match s with
  | Positional k | FlagValue _ k => [str (p k)]
  | Positionals k => spread (p k)
  | _ => []
  end.

(** The fixed leading tokens of each tool. *)
Definition subcommand (t : Tool.t) : list jsstring :=
  match t with
  | Tool.status => ["status"]
  | Tool.rebase => ["rebase"]
  | Tool.commit => ["commit"]
  | Tool.new => ["new"]
  | Tool.abandon => ["abandon"]
  | Tool.log => ["log"]
  | Tool.bookmark_create => ["bookmark"; "create"]
  | Tool.bookmark_delete => ["bookmark"; "delete"]
  | Tool.bookmark_forget => ["bookmark"; "forget"]
  | Tool.bookmark_list => ["bookmark"; "list"]
  | Tool.bookmark_move => ["bookmark"; "move"]
  | Tool.bookmark_rename => ["bookmark"; "rename"]
  | Tool.bookmark_set => ["bookmark"; "set"]
  | Tool.bookmark_track => ["bookmark"; "track"]
  | Tool.bookmark_untrack => ["bookmark"; "untrack"]
  | Tool.diff => ["diff"]
  | Tool.git_clone => ["git"; "clone"]
  | Tool.git_export => ["git"; "export"]
  | Tool.git_fetch => ["git"; "fetch"]
  | Tool.git_import => ["git"; "import"]
  | Tool.init => ["git"; "init"]
  | Tool.git_push => ["git"; "push"]
  | Tool.git_remote_add => ["git"; "remote"; "add"]
  | Tool.git_remote_list => ["git"; "remote"; "list"]
  | Tool.git_remote_remove => ["git"; "remote"; "remove"]
  | Tool.git_remote_rename => ["git"; "remote"; "rename"]
  | Tool.git_remote_set_url => ["git"; "remote"; "set-url"]
  | Tool.git_root => ["git"; "root"]
  | Tool.show => ["show"]
  | Tool.revert => ["revert"]
  | Tool.restore => ["restore"]
  | Tool.interdiff => ["interdiff"]
  | Tool.evolog => ["evolog"]
  | Tool.edit => ["edit"]
  | Tool.file_annotate => ["file"; "annotate"]
  | Tool.file_chmod => ["file"; "chmod"]
  | Tool.file_list => ["file"; "list"]
  | Tool.file_show => ["file"; "show"]
  | Tool.file_track => ["file"; "track"]
  | Tool.file_untrack => ["file"; "untrack"]
  | Tool.squash => ["squash"]
  | Tool.workspace_root => ["workspace"; "root"]
  | Tool.operation_abandon => ["operation"; "abandon"]
  | Tool.operation_diff => ["operation"; "diff"]
  | Tool.operation_log => ["operation"; "log"]
  | Tool.operation_restore => ["operation"; "restore"]
  | Tool.operation_show => ["operation"; "show"]
  | Tool.operation_undo => ["operation"; "undo"]
  | Tool.config_get => ["config"; "get"]
  | Tool.config_list => ["config"; "list"]
  | Tool.config_set => ["config"; "set"]
  | Tool.config_unset => ["config"; "unset"]
  | Tool.config_path => ["config"; "path"]
  | Tool.tag_list => ["tag"; "list"]
  | Tool.describe => ["describe"]
  end.

(** The parameter slots of each tool, in the order their tokens appear. *)
Definition slots (t : Tool.t) : list Slot :=
  let repository := OptFlagValue "--repository" Param.repoPath in
  match t with
  | Tool.status | Tool.git_export | Tool.git_import | Tool.git_remote_list
  | Tool.git_root | Tool.workspace_root =>
      [repository]
  | Tool.rebase =>
      [FlagValue "--source" Param.source;
       FlagValue "--destination" Param.destination; repository]
  | Tool.commit =>
      [FlagValue "-m" Param.message; repository]
  | Tool.new =>
      [OptFlagValue "--parents" Param.parents; repository]
  | Tool.abandon =>
      [Positional Param.revisions; repository]
  | Tool.log =>
      [repository; OptFlagNumberDefined "-n" Param.limit]
  | Tool.bookmark_create =>
      [Positional Param.name; OptFlagValue "-r" Param.revision; repository]
  | Tool.bookmark_delete | Tool.bookmark_forget =>
      [Positionals Param.names; repository]
  | Tool.bookmark_list =>
      [repository; OptFlagValue "-T" Param.template]
  | Tool.bookmark_move =>
      [Positionals Param.names; FlagValue "-t" Param.revision; repository]
  | Tool.bookmark_rename | Tool.git_remote_rename =>
      [Positional Param.oldName; Positional Param.newName; repository]
  | Tool.bookmark_set =>
      [Positional Param.name; FlagValue "-r" Param.revision; repository]
  | Tool.bookmark_track | Tool.bookmark_untrack =>
      [Positional Param.remoteBookmark; repository]
  | Tool.diff =>
      [OptFlagValue "-f" Param.from; OptFlagValue "-t" Param.to; repository;
       OptFlagNumberDefined "--context" Param.context;
       OptFlag "--stat" Param.stat]
  | Tool.git_clone =>
      [Positional Param.source; OptPositional Param.destination;
       OptFlagValue "--remote" Param.remoteName;
       OptFlag "--colocate" Param.colocate;
       OptFlagNumber "--depth" Param.depth]
  | Tool.git_fetch =>
      [OptFlagValue "--remote" Param.remote; repository;
       OptFlagValues "--branch" Param.branches]
  | Tool.init =>
      [OptPositional Param.destination; OptFlag "--colocate" Param.colocate;
       OptFlagValue "--git-repo" Param.gitRepo]
  | Tool.git_push =>
      [OptFlagValue "--remote" Param.remote;
       OptFlagValues "--bookmark" Param.bookmarks;
       OptFlag "--all" Param.all; OptFlag "--tracked" Param.tracked;
       OptFlag "--deleted" Param.deleted; OptFlag "--allow-new" Param.allowNew;
       repository]
  | Tool.git_remote_add | Tool.git_remote_set_url =>
      [Positional Param.name; Positional Param.url; repository]
  | Tool.git_remote_remove | Tool.config_get =>
      [Positional Param.name; repository]
  | Tool.show =>
      [OptFlagValue "-r" Param.revision; repository;
       OptFlagNumberDefined "--context" Param.context]
  | Tool.revert =>
      [OptFlagValue "-d" Param.destination; Positionals Param.revisions; repository]
  | Tool.restore =>
      [OptFlagValue "-f" Param.source; OptFlagValue "-t" Param.destination;
       Positionals Param.paths; repository]
  | Tool.interdiff =>
      [FlagValue "-f" Param.from; FlagValue "-t" Param.to; repository;
       OptFlagNumberDefined "--context" Param.context]
  | Tool.evolog =>
      [OptFlagValue "-r" Param.revision; repository;
       OptFlagNumber "-n" Param.limit; OptFlag "-p" Param.patch]
  | Tool.edit =>
      [Positional Param.revision; repository]
  | Tool.file_annotate =>
      [OptFlagValue "-r" Param.revision; Positional Param.path; repository]
  | Tool.file_chmod =>
      [OptFlagValue "-r" Param.revision; Positional Param.mode;
       Positionals Param.paths; repository]
  | Tool.file_list =>
      [OptFlagValue "-r" Param.revision; OptPositionals Param.paths; repository]
  | Tool.file_show =>
      [OptFlagValue "-r" Param.revision; Positionals Param.paths; repository]
  | Tool.file_track | Tool.file_untrack =>
      [Positionals Param.paths; repository]
  | Tool.squash =>
      [OptFlagValue "-f" Param.source; OptFlagValue "-t" Param.destination;
       OptPositionals Param.paths; OptFlag "-k" Param.keepEmptied; repository]
  | Tool.operation_abandon | Tool.operation_restore =>
      [Positional Param.operation; repository]
  | Tool.operation_diff =>
      [OptFlagValue "-f" Param.from; OptFlagValue "-t" Param.to; repository;
       OptFlagNumberDefined "--context" Param.context]
  | Tool.operation_log =>
      [OptFlagNumber "-n" Param.limit; repository]
  | Tool.operation_show | Tool.operation_undo =>
      [OptPositional Param.operation; repository]
  | Tool.config_list =>
      [OptPositional Param.name;
       OptFlag "--include-defaults" Param.includeDefaults;
       OptFlag "--include-overridden" Param.includeOverridden;
       OptFlag "--user" Param.user; OptFlag "--repo" Param.repo; repository]
  | Tool.config_set =>
      [OptFlag "--user" Param.user; OptFlag "--repo" Param.repo;
       Positional Param.name; Positional Param.value; repository]
  | Tool.config_unset =>
      [OptFlag "--user" Param.user; OptFlag "--repo" Param.repo;
       Positional Param.name; repository]
  | Tool.config_path =>
      [OptFlag "--user" Param.user; OptFlag "--repo" Param.repo; repository]
  | Tool.tag_list =>
      [OptPositionals Param.names; repository; OptFlagValue "-T" Param.template]
  | Tool.describe =>
      [repository; FlagValue "-m" Param.message;
       OptFlag "--reset-author" Param.resetAuthor;
       OptFlagValue "--author" Param.author; OptPositional Param.revisions]
  end.

(** The types of parameter a slot kind is written for. *)
Definition slot_admits (s : Slot) (ty : ZodType) : bool :=
  match s, ty with
  | Positional _, z_string | Positional _, z_enum _ => true
  | FlagValue _ _, z_string => true
  | Positionals _, z_array_string => true
  | OptPositional _, z_optional z_string => true
  | OptFlagValue _ _, z_optional z_string => true
  | OptFlag _ _, z_optional z_boolean => true
  | OptFlagNumber _ _, z_optional z_number_int_positive => true
  | OptFlagNumberDefined _ _, z_optional z_number_int_positive => true
  | OptFlagNumberDefined _ _, z_optional z_number_int_nonnegative => true
  | OptFlagValues _ _, z_optional z_array_string => true
  | OptPositionals _, z_optional z_array_string => true
  | _, _ => false
  end.

(** Every declared parameter except [cwd] has a slot of a matching kind. *)
Definition schema_covered (t : Tool.t) : bool :=
  forallb
    (fun field =>
       Param.eqb (fst field) Param.cwd
       || existsb
            (fun s => Param.eqb (slot_param s) (fst field) && slot_admits s (snd field))
            (slots t))
    (schema t).

(** Every slot that can stay empty belongs to an optional parameter. *)
Definition slots_declared (t : Tool.t) : bool :=
  forallb
    (fun s => slot_mandatory s || existsb (Param.eqb (slot_param s)) (optional_params t))
    (slots t).

Fixpoint distinct (l : list Param.t) : bool :=
  match l with
  | [] => true
  | k :: rest => negb (existsb (Param.eqb k) rest) && distinct rest
  end.

(** ** Specifications the claims are stated with *)

(** [t] is [s] with leading and trailing whitespace removed and nothing
    else: [s] is [t] between two runs of whitespace, and [t] neither begins
    nor ends with whitespace. *)
Definition begins_with_whitespace (s : jsstring) : bool :=
  match s with
  | [] => false
  | c :: _ => isWhiteSpace c
  end.

Definition trimmed_of (s t : jsstring) : Prop :=
  exists leading trailing,
    s = leading ++ t ++ trailing
    /\ forallb isWhiteSpace leading = true
    /\ forallb isWhiteSpace trailing = true
    /\ begins_with_whitespace t = false
    /\ begins_with_whitespace (rev t) = false.

(** Every optional parameter of the tool is left out of the object. *)
Definition optionals_omitted (t : Tool.t) (p : Params) : Prop :=
  forall k, In k (optional_params t) -> p k = JUndefined.

(** The tokens of the parameters a tool always requires. *)
Definition required_args (t : Tool.t) (p : Params) : list jsstring :=
  render (filter slot_mandatory (slots t)) p.

(** The flag tokens a tool has for its optional parameters. *)
Definition optional_flags (t : Tool.t) : list jsstring :=
  flat_map slot_optional_flag (slots t).

(** The required values the caller passed, which the handler copies into
    the list unchanged. *)
Definition required_values (t : Tool.t) (p : Params) : list jsstring :=
  flat_map (slot_values p) (slots t).

(** The flag tokens a tool pushes unconditionally. *)
Definition slot_required_flag (s : Slot) : list jsstring :=
  match s with
  | FlagValue flag _ => [flag]
  | _ => []
  end.

Definition required_flags (t : Tool.t) : list jsstring :=
  flat_map slot_required_flag (slots t).

(** No optional flag of a tool is spelled like one of its fixed tokens. *)
Definition flags_apart (t : Tool.t) : bool :=
  forallb
    (fun flag => negb (existsb (jsstring_eqb flag) (subcommand t ++ required_flags t)))
    (optional_flags t).

(** [emits s v tokens]: the group of tokens an optional parameter with
    value [v] contributes at slot [s]. *)
Inductive emits : Slot -> JsValue -> list jsstring -> Prop :=
| emits_omitted s :
    slot_mandatory s = false -> emits s JUndefined []
| emits_empty_positional k :
    emits (OptPositional k) (JString []) []
| emits_empty_value flag k :
    emits (OptFlagValue flag k) (JString []) []
| emits_false flag k :
    emits (OptFlag flag k) (JBoolean false) []
| emits_positional k c s :
    emits (OptPositional k) (JString (c :: s)) [c :: s]
| emits_flag_value flag k c s :
    emits (OptFlagValue flag k) (JString (c :: s)) [flag; c :: s]
| emits_flag flag k :
    emits (OptFlag flag k) (JBoolean true) [flag]
| emits_flag_number flag k n :
    n <> 0%Z -> emits (OptFlagNumber flag k) (JNumber n) [flag; toString n]
| emits_flag_number_defined flag k n :
    emits (OptFlagNumberDefined flag k) (JNumber n) [flag; toString n]
| emits_flag_values flag k l :
    emits (OptFlagValues flag k) (JArray l) (flag :: l)
| emits_positionals k l :
    emits (OptPositionals k) (JArray l) l.

(** The flag token shared by all elements of an array, for the slots that
    have one. *)
Definition shared_flag (s : Slot) : list jsstring :=
  match s with
  | OptFlagValues flag _ => [flag]
  | _ => []
  end.

(** ** Sample runs *)

Definition LF : N := 0x0A%N.

(** [parts.join(separator)] *)
Fixpoint join (separator : jsstring) (parts : list jsstring) : jsstring :=
  match parts with
  | [] => []
  | [a] => a
  | a :: rest => a ++ separator ++ join separator rest
  end.

(** [execFileAsync] is called without a [maxBuffer], so Node's default
    applies: one mebibyte on each stream, counted in bytes of the UTF-8
    text. *)
Definition maxBuffer : Z := (1024 * 1024)%Z.

(** The bytes a code unit was decoded from; what the decoder hands over has
    its surrogates in pairs, four bytes a pair. *)
Definition utf8_bytes (c : N) : Z :=
  if (c <? 0x80)%N then 1%Z
  else if (c <? 0x800)%N then 2%Z
  else if (0xD800 <=? c)%N && (c <? 0xE000)%N then 2%Z
  else 3%Z.

(** [Buffer.byteLength(s, "utf8")] *)
Definition byteLength (s : jsstring) : Z :=
  fold_right (fun c n => (utf8_bytes c + n)%Z) 0%Z s.

(** A child that writes [out] to its standard output, nothing to its
    standard error, and exits with status zero.  Node fulfils the promise
    when [out] fits the buffer; when it does not, Node stops reading and
    rejects with its own error, whatever the exit status. *)
Definition exits_zero (out : jsstring)
  : jsstring -> list jsstring -> option jsstring -> Completion ExecResult :=
  fun _ _ _ =>
    if (maxBuffer <? byteLength out)%Z
    then Throw {| message := "stdout maxBuffer length exceeded"; stderr := Some [] |}
    else Return {| stdout := out; stdout_stderr := [] |}.


(** A child that exits with a non-zero status after writing [err], which
    fits the buffer, to its standard error: the rejection carries [err] and
    a message made of the command line and [err]. *)
Definition exits_nonzero (err : jsstring)
  : jsstring -> list jsstring -> option jsstring -> Completion ExecResult :=
  fun file args _ =>
    Throw {| message := "Command failed: " ++ join " " (file :: args) ++ [LF] ++ err;
             stderr := Some err |}.

(** A child that could not be started: no output was captured and the
    message is the operating system's. *)
Definition spawn_fails (description : jsstring)
  : jsstring -> list jsstring -> option jsstring -> Completion ExecResult :=
  fun _ _ _ => Throw {| message := description; stderr := Some [] |}.

Definition rebase_example : Params :=
  object [(Param.source, JString "@-"); (Param.destination, JString "main")].

Definition bookmark_create_example : Params :=
  object [(Param.name, JString "feature-x")].

Definition abandon_flag_like : Params :=
  object [(Param.revisions, JString "--repository")].

Definition bookmark_create_blank_revision : Params :=
  object [(Param.name, JString "feature-x"); (Param.revision, JString [])].

(** ** Further readings of the tables *)

(** The tokens a tool can push that are written in its handler. *)
Definition fixed_tokens (t : Tool.t) : list jsstring :=
  subcommand t ++ required_flags t ++ optional_flags t.

(** The tool's schema has a field of that name. *)
Definition declares (t : Tool.t) (k : Param.t) : bool :=
  existsb (fun field => Param.eqb (fst field) k) (schema t).

(** Every slot reads a declared parameter of a type it is written for. *)
Definition slots_typed (t : Tool.t) : bool :=
  forallb
    (fun s =>
       existsb
         (fun field => Param.eqb (fst field) (slot_param s) && slot_admits s (snd field))
         (schema t))
    (slots t).

Definition HYPHEN : N := 0x2D%N.

Definition begins_with_hyphen (s : jsstring) : bool :=
  match s with
  | [] => false
  | c :: _ => (c =? HYPHEN)%N
  end.

Definition nonempty (s : jsstring) : bool :=
  match s with
  | [] => false
  | _ :: _ => true
  end.

(** The value holds [token]: as the string itself, as an element of the
    array, or as the decimal text of the number. *)
Definition holds (v : JsValue) (token : jsstring) : Prop :=
  v = JString token
  \/ (exists elements, v = JArray elements /\ In token elements)
  \/ (exists n, v = JNumber n /\ token = toString n).

Definition rebase_example_with_stat : Params :=
  with_param Param.stat (JBoolean true) rebase_example.

(** * Properties *)

(** ** Trimming *)

Lemma forallb_rev (A : Type) (f : A -> bool) (l : list A) :
  forallb f (rev l) = forallb f l.
Proof.
  induction l as [|a l IH]; simpl; [reflexivity|].
  rewrite forallb_app, IH. simpl.
  rewrite andb_true_r. apply andb_comm.
Qed.

Lemma trimStart_split (s : jsstring) :
  exists leading,
    s = leading ++ trimStart s
    /\ forallb isWhiteSpace leading = true
    /\ begins_with_whitespace (trimStart s) = false.
Proof.
  induction s as [|c s IH]; simpl.
  - exists []. auto.
  - destruct (isWhiteSpace c) eqn:Hc.
    + destruct IH as (l & Hs & Hl & Hb).
      exists (c :: l). simpl. rewrite Hc, Hl, <- Hs. auto.
    + exists []. simpl. auto.
Qed.

Lemma trimStart_whitespace (leading rest : jsstring) :
  forallb isWhiteSpace leading = true ->
  trimStart (leading ++ rest) = trimStart rest.
Proof.
  induction leading as [|c l IH]; simpl; intros H; [reflexivity|].
  apply andb_true_iff in H as [Hc Hl]. rewrite Hc. auto.
Qed.

Lemma trimStart_fixed (s : jsstring) :
  begins_with_whitespace s = false -> trimStart s = s.
Proof.
  destruct s as [|c s]; simpl; intros H; [reflexivity|]. now rewrite H.
Qed.

Lemma begins_app (s rest : jsstring) :
  s <> [] -> begins_with_whitespace (s ++ rest) = begins_with_whitespace s.
Proof. destruct s; [congruence | reflexivity]. Qed.

Lemma trimEnd_split (s : jsstring) :
  exists trailing,
    s = trimEnd s ++ trailing
    /\ forallb isWhiteSpace trailing = true
    /\ begins_with_whitespace (rev (trimEnd s)) = false.
Proof.
  unfold trimEnd.
  destruct (trimStart_split (rev s)) as (l & Hs & Hl & Hb).
  exists (rev l). rewrite rev_involutive, forallb_rev. repeat split; auto.
  rewrite <- rev_app_distr, <- Hs. symmetry. apply rev_involutive.
Qed.

(** [trim] removes leading and trailing whitespace and nothing else. *)
Lemma trim_trimmed (s : jsstring) : trimmed_of s (trim s).
Proof.
  unfold trim.
  destruct (trimStart_split s) as (l & Hs & Hl & Hb).
  destruct (trimEnd_split (trimStart s)) as (r & Hu & Hr & He).
  exists l, r. repeat split; auto.
  - now rewrite <- Hu.
  - destruct (trimEnd (trimStart s)) as [|c u] eqn:Ht; [reflexivity|].
    rewrite Hu in Hb. exact Hb.
Qed.

(** ... and it is the only string that does. *)
Lemma trimmed_unique (s t : jsstring) : trimmed_of s t -> t = trim s.
Proof.
  intros (l & r & -> & Hl & Hr & Hb & He).
  unfold trim. rewrite (trimStart_whitespace _ _ Hl).
  destruct t as [|c t].
  - simpl. rewrite <- (app_nil_r r), (trimStart_whitespace _ _ Hr). reflexivity.
  - rewrite trimStart_fixed by (rewrite begins_app by discriminate; exact Hb).
    unfold trimEnd. rewrite rev_app_distr.
    rewrite trimStart_whitespace by (now rewrite forallb_rev).
    rewrite (trimStart_fixed _ He). symmetry. apply rev_involutive.
Qed.

(** ** The subprocess invoker *)

Lemma runJJCommand_fulfilled execFileAsync args cwd result :
  execFileAsync JJ_COMMAND args cwd = Return result ->
  runJJCommand execFileAsync args cwd = Return (trim (stdout result)).
Proof. unfold runJJCommand. intros ->. reflexivity. Qed.

Lemma runJJCommand_rejected_stderr execFileAsync args cwd error c rest :
  execFileAsync JJ_COMMAND args cwd = Throw error ->
  stderr error = Some (c :: rest) ->
  runJJCommand execFileAsync args cwd = Return ("Error: " ++ trim (c :: rest)).
Proof. unfold runJJCommand. intros -> H. simpl. rewrite H. reflexivity. Qed.

Lemma runJJCommand_rejected_message execFileAsync args cwd error :
  execFileAsync JJ_COMMAND args cwd = Throw error ->
  stderr error = None \/ stderr error = Some [] ->
  runJJCommand execFileAsync args cwd = Return ("Error: " ++ message error).
Proof. unfold runJJCommand. intros -> [H|H]; simpl; rewrite H; reflexivity. Qed.

Lemma runJJCommand_returns execFileAsync args cwd :
  exists output, runJJCommand execFileAsync args cwd = Return output.
Proof.
  unfold runJJCommand.
  destruct (execFileAsync JJ_COMMAND args cwd) as [result|error]; simpl; eauto.
  destruct (stderr error) as [[|c rest]|]; eauto.
Qed.

Lemma whitespace_trims_to_nothing (s : jsstring) :
  forallb isWhiteSpace s = true -> trim s = [].
Proof.
  intros H. symmetry. apply trimmed_unique.
  exists s, []. rewrite app_nil_r. auto.
Qed.

Lemma trim_nothing_whitespace (s : jsstring) :
  trim s = [] -> forallb isWhiteSpace s = true.
Proof.
  intros H. destruct (trim_trimmed s) as (l & r & Hs & Hl & Hr & _).
  rewrite H in Hs. simpl in Hs. rewrite Hs, forallb_app, Hl, Hr. reflexivity.
Qed.



Example runJJCommand_keeps_inner_whitespace :
  runJJCommand
    (exits_zero ([LF] ++ "  Working copy  changes:" ++ [LF] ++ "M  a.txt " ++ [LF; LF]))
    ["status"] None
  = Return ("Working copy  changes:" ++ [LF] ++ "M  a.txt").
Proof. reflexivity. Qed.



Lemma exits_zero_within out file args cwd :
  (byteLength out <= maxBuffer)%Z ->
  exits_zero out file args cwd = Return {| stdout := out; stdout_stderr := [] |}.
Proof.
  intros H. unfold exits_zero.
  destruct (Z.ltb_spec maxBuffer (byteLength out)); [lia|reflexivity].
Qed.





(** C1, as amended.  [runJJCommand] never throws: whatever the subprocess
    does, it returns a text.  When the promise is rejected the text is
    [Error: ] followed by a diagnostic: the trimmed standard error when
    there is any, and otherwise the error's message, which for a child that
    could not be started is the operating system's description.  The
    diagnostic is empty only when the standard error is nothing but
    whitespace, or when there is neither standard error nor a message. *)
Theorem runJJCommand_never_throws :
  forall execFileAsync args cwd,
    (exists output, runJJCommand execFileAsync args cwd = Return output)
    /\ (forall error,
          execFileAsync JJ_COMMAND args cwd = Throw error ->
          exists diagnostic,
            runJJCommand execFileAsync args cwd = Return ("Error: " ++ diagnostic)
            /\ (forall text,
                  stderr error = Some text -> text <> [] -> trimmed_of text diagnostic)
            /\ (stderr error = None \/ stderr error = Some [] ->
                diagnostic = message error)
            /\ (diagnostic = [] ->
                (exists text,
                    stderr error = Some text /\ text <> []
                    /\ forallb isWhiteSpace text = true)
                \/ ((stderr error = None \/ stderr error = Some [])
                    /\ message error = []))).
Proof.
  intros exec args cwd. split.
  - apply runJJCommand_returns.
  - intros error Hthrow.
    destruct (stderr error) as [[|c rest]|] eqn:Herr.
    + exists (message error). split; [|repeat split].
      * apply runJJCommand_rejected_message with (error := error); auto.
      * intros text Ht; inversion Ht; congruence.
      * intros H; right; auto.
    + exists (trim (c :: rest)). split; [|repeat split].
      * now apply runJJCommand_rejected_stderr with (error := error).
      * intros text Ht _. inversion Ht; subst. apply trim_trimmed.
      * intros [H|H]; discriminate.
      * intros H. left. exists (c :: rest). repeat split; [discriminate|].
        now apply trim_nothing_whitespace.
    + exists (message error). split; [|repeat split].
      * apply runJJCommand_rejected_message with (error := error); auto.
      * intros text Ht; discriminate.
      * intros H; right; auto.
Qed.

Lemma runJJCommand_never_throws_witness :
  spawn_fails "spawn jj ENOENT" JJ_COMMAND ["status"] None
  = Throw {| message := "spawn jj ENOENT"; stderr := Some [] |}
  /\ runJJCommand (spawn_fails "spawn jj ENOENT") ["status"] None
     = Return "Error: spawn jj ENOENT".
Proof.
  split; [reflexivity|].
  destruct (runJJCommand_never_throws (spawn_fails "spawn jj ENOENT") ["status"] None)
    as [_ H].
  destruct (H _ eq_refl) as (diagnostic & Hrun & _ & Hmessage & _).
  rewrite Hrun, (Hmessage (or_intror eq_refl)). reflexivity.
Defined.

(** The whole invocation path of a tool returns one text block and never
    throws. *)
Lemma call_tool_never_throws execFileAsync t p :
  exists output,
    call_tool execFileAsync t p
    = Return {| content := [ {| type := "text"; text := output |} ] |}.
Proof.
  unfold call_tool.
  destruct (runJJCommand_returns
              execFileAsync (call_args (handler t p)) (call_cwd (handler t p)))
    as [output H].
  exists output. rewrite H. reflexivity.
Qed.

(** C1 as stated fails: a child that exits with a non-zero status after
    writing only a line feed to its standard error is reported as [Error: ]
    with nothing after it. *)
Lemma runJJCommand_blank_stderr :
  runJJCommand (exits_nonzero [LF]) ["status"] None = Return "Error: "
  /\ ~ (exists diagnostic,
          diagnostic <> []
          /\ runJJCommand (exits_nonzero [LF]) ["status"] None
             = Return ("Error: " ++ diagnostic)).
Proof.
  split; [reflexivity|].
  intros (diagnostic & Hne & H).
  change (runJJCommand (exits_nonzero [LF]) ["status"] None)
    with (Return (A := jsstring) ("Error: " ++ [])) in H.
  inversion H as [H']. congruence.
Qed.

(** ** The argument builders *)

Create HintDb handlers.

#[local] Hint Unfold
  status_handler rebase_handler commit_handler new_handler abandon_handler
  log_handler bookmark_create_handler bookmark_delete_handler
  bookmark_forget_handler bookmark_list_handler bookmark_move_handler
  bookmark_rename_handler bookmark_set_handler bookmark_track_handler
  bookmark_untrack_handler diff_handler git_clone_handler git_export_handler
  git_fetch_handler git_import_handler init_handler git_push_handler
  git_remote_add_handler git_remote_list_handler git_remote_remove_handler
  git_remote_rename_handler git_remote_set_url_handler git_root_handler
  show_handler revert_handler restore_handler interdiff_handler
  evolog_handler edit_handler file_annotate_handler file_chmod_handler
  file_list_handler file_show_handler file_track_handler
  file_untrack_handler squash_handler workspace_root_handler
  operation_abandon_handler operation_diff_handler operation_log_handler
  operation_restore_handler operation_show_handler operation_undo_handler
  config_get_handler config_list_handler config_set_handler
  config_unset_handler config_path_handler tag_list_handler describe_handler
  : handlers.

Ltac split_tests :=
  repeat match goal with
         | |- context [if ?c then _ else _] => destruct c
         end.

(** Each handler builds the list its row of the table describes. *)
Lemma args_of_layout (t : Tool.t) (p : Params) :
  args_of t p = subcommand t ++ render (slots t) p.
Proof.
  destruct t; unfold args_of, handler; autounfold with handlers;
    cbv [call_args run push subcommand slots render flat_map
         slot_tokens slot_tokens_of slot_param];
    split_tests; simpl; rewrite <- ?app_assoc, ?app_nil_r; reflexivity.
Qed.

Lemma Param_eqb_eq (a b : Param.t) : Param.eqb a b = true <-> a = b.
Proof.
  unfold Param.eqb. destruct (Param.eq_dec a b); split; congruence.
Qed.

Lemma jsstring_eqb_eq (a b : jsstring) : jsstring_eqb a b = true <-> a = b.
Proof.
  unfold jsstring_eqb. destruct (list_eq_dec N.eq_dec a b); split; congruence.
Qed.

Lemma with_param_same k v p : with_param k v p k = v.
Proof. unfold with_param. destruct (Param.eq_dec k k); congruence. Qed.

Lemma with_param_other k k' v p : k' <> k -> with_param k v p k' = p k'.
Proof. unfold with_param. destruct (Param.eq_dec k' k); congruence. Qed.

Lemma render_app l1 l2 p : render (l1 ++ l2) p = render l1 p ++ render l2 p.
Proof. apply flat_map_app. Qed.

Lemma render_with_param_other l k v p :
  ~ In k (map slot_param l) -> render l (with_param k v p) = render l p.
Proof.
  induction l as [|s l IH]; simpl; intros H; [reflexivity|].
  rewrite IH by (intros Hin; apply H; now right).
  f_equal. unfold slot_tokens.
  rewrite with_param_other by (intros E; apply H; left; exact E).
  reflexivity.
Qed.

Lemma distinct_NoDup l : distinct l = true -> NoDup l.
Proof.
  induction l as [|k l IH]; simpl; intros H; constructor.
  - apply andb_true_iff in H as [H _]. intros Hin.
    apply negb_true_iff in H.
    assert (existsb (Param.eqb k) l = true); [|congruence].
    apply existsb_exists. exists k. split; [exact Hin|now apply Param_eqb_eq].
  - apply andb_true_iff in H as [_ H]. auto.
Qed.

(** No parameter feeds two slots. *)
Lemma slots_distinct t : NoDup (map slot_param (slots t)).
Proof. apply distinct_NoDup. destruct t; reflexivity. Qed.

Lemma slot_alone t before s after :
  slots t = before ++ s :: after ->
  ~ In (slot_param s) (map slot_param before)
  /\ ~ In (slot_param s) (map slot_param after).
Proof.
  intros H. pose proof (slots_distinct t) as Hnd.
  rewrite H, map_app in Hnd. simpl in Hnd.
  apply NoDup_remove_2 in Hnd.
  split; intros Hin; apply Hnd, in_or_app; auto.
Qed.

(** Changing one parameter changes the tokens of its slot and nothing
    else. *)
Lemma args_of_with_param t before s after p v :
  slots t = before ++ s :: after ->
  args_of t (with_param (slot_param s) v p)
  = subcommand t ++ render before p ++ slot_tokens_of s v ++ render after p.
Proof.
  intros H. destruct (slot_alone _ _ _ _ H) as [Hb Ha].
  rewrite args_of_layout, H, render_app. simpl.
  rewrite !render_with_param_other by assumption.
  unfold slot_tokens. rewrite with_param_same. reflexivity.
Qed.

Lemma schema_is_covered t : schema_covered t = true.
Proof. destruct t; reflexivity. Qed.

Lemma slots_are_declared t : slots_declared t = true.
Proof. destruct t; reflexivity. Qed.

Lemma flags_are_apart t : flags_apart t = true.
Proof. destruct t; reflexivity. Qed.

Lemma cwd_has_no_slot t : ~ In Param.cwd (map slot_param (slots t)).
Proof. destruct t; simpl; intuition discriminate. Qed.

(** [cwd] never reaches the argument list. *)
Lemma args_of_cwd t v p : args_of t (with_param Param.cwd v p) = args_of t p.
Proof.
  rewrite !args_of_layout. f_equal.
  apply render_with_param_other, cwd_has_no_slot.
Qed.

(** Every declared parameter other than [cwd] has its slot. *)
Lemma declared_slot t k ty :
  In (k, ty) (schema t) -> k <> Param.cwd ->
  exists before s after,
    slots t = before ++ s :: after /\ slot_param s = k /\ slot_admits s ty = true.
Proof.
  intros Hin Hk. pose proof (schema_is_covered t) as H.
  unfold schema_covered in H. rewrite forallb_forall in H.
  specialize (H _ Hin). simpl in H.
  apply orb_true_iff in H as [H|H].
  - apply Param_eqb_eq in H. contradiction.
  - apply existsb_exists in H as (s & Hs & H).
    apply andb_true_iff in H as [H1 H2]. apply Param_eqb_eq in H1.
    destruct (in_split _ _ Hs) as (before & after & E).
    exists before, s, after. auto.
Qed.

Lemma optional_slot_declared t s :
  In s (slots t) -> slot_mandatory s = false -> In (slot_param s) (optional_params t).
Proof.
  intros Hin Hopt. pose proof (slots_are_declared t) as H.
  unfold slots_declared in H. rewrite forallb_forall in H.
  specialize (H _ Hin). rewrite Hopt in H. simpl in H.
  apply existsb_exists in H as (k & Hk & E).
  apply Param_eqb_eq in E. congruence.
Qed.

Lemma render_mandatory l p :
  (forall s, In s l -> slot_mandatory s = false -> p (slot_param s) = JUndefined) ->
  render l p = render (filter slot_mandatory l) p.
Proof.
  induction l as [|s l IH]; simpl; intros H; [reflexivity|].
  rewrite IH by auto.
  destruct (slot_mandatory s) eqn:E; [reflexivity|].
  unfold slot_tokens. rewrite (H s) by auto.
  destruct s; try discriminate; reflexivity.
Qed.

Lemma mandatory_token l p token :
  In token (render (filter slot_mandatory l) p) ->
  In token (flat_map slot_required_flag l) \/ In token (flat_map (slot_values p) l).
Proof.
  induction l as [|s l IH]; simpl; [tauto|].
  destruct s; simpl; unfold slot_tokens; simpl;
    rewrite ?in_app_iff; simpl; intuition.
Qed.

Lemma apart_not_fixed t flag :
  In flag (optional_flags t) -> ~ In flag (subcommand t ++ required_flags t).
Proof.
  intros Hin Hfixed. pose proof (flags_are_apart t) as H.
  unfold flags_apart in H. rewrite forallb_forall in H.
  specialize (H _ Hin). apply negb_true_iff in H.
  assert (existsb (jsstring_eqb flag) (subcommand t ++ required_flags t) = true);
    [|congruence].
  apply existsb_exists. exists flag. split; [exact Hfixed|now apply jsstring_eqb_eq].
Qed.

Lemma emits_admitted s ty v :
  slot_admits s (z_optional ty) = true ->
  conforms (z_optional ty) v = true ->
  emits s v (slot_tokens_of s v).
Proof.
  destruct s, ty; simpl; try discriminate; intros _ H;
    destruct v as [|[|c r]|n|[|]|l]; simpl in *; try discriminate;
    try (constructor; reflexivity).
  destruct (Z.eqb_spec n 0); [subst; discriminate|].
  simpl. now constructor.
Qed.

(** C4, as amended.  With every optional parameter omitted, a tool's
    argument list is its fixed subcommand tokens followed by the tokens of
    its required parameters, and nothing else: no token is pushed for an
    optional parameter, and a token spelled like one of the tool's optional
    flags can only be a value the caller passed for a required parameter. *)
Theorem omitted_optionals_args :
  forall t p,
    optionals_omitted t p ->
    args_of t p = subcommand t ++ required_args t p
    /\ (forall flag,
          In flag (optional_flags t) -> In flag (args_of t p) ->
          In flag (required_values t p)).
Proof.
  intros t p Homit.
  assert (E : args_of t p = subcommand t ++ required_args t p).
  { rewrite args_of_layout. f_equal. apply render_mandatory.
    intros s Hin Hopt. apply Homit. now apply optional_slot_declared. }
  split; [exact E|].
  intros flag Hflag Hin. rewrite E in Hin.
  pose proof (apart_not_fixed t flag Hflag) as Hfixed.
  apply in_app_or in Hin as [Hin|Hin].
  - exfalso. apply Hfixed, in_or_app. now left.
  - apply mandatory_token in Hin as [Hin|Hin]; [|exact Hin].
    exfalso. apply Hfixed, in_or_app. now right.
Qed.

(** C4 as stated fails: [abandon] given the revision [--repository] and no
    optional parameter has the spelling of its optional flag in the list,
    because required values are copied as they are. *)
Lemma abandon_flag_like_value :
  accepts Tool.abandon abandon_flag_like = true
  /\ optionals_omitted Tool.abandon abandon_flag_like
  /\ args_of Tool.abandon abandon_flag_like = ["abandon"; "--repository"]
  /\ ~ (forall flag,
          In flag (optional_flags Tool.abandon) ->
          ~ In flag (args_of Tool.abandon abandon_flag_like)).
Proof.
  split; [reflexivity|]. split; [|split; [reflexivity|]].
  - intros k Hk. simpl in Hk. destruct Hk as [<-|[<-|[]]]; reflexivity.
  - intros H. apply (H "--repository"); simpl; tauto.
Qed.

Lemma rebase_example_omits : optionals_omitted Tool.rebase rebase_example.
Proof.
  intros k Hk. simpl in Hk.
  destruct Hk as [<-|[<-|[]]]; reflexivity.
Defined.

Lemma omitted_optionals_args_witness :
  optionals_omitted Tool.rebase rebase_example
  /\ args_of Tool.rebase rebase_example
     = subcommand Tool.rebase ++ required_args Tool.rebase rebase_example.
Proof.
  split; [exact rebase_example_omits|].
  exact (proj1 (omitted_optionals_args Tool.rebase rebase_example rebase_example_omits)).
Defined.

Example describe_message_only :
  args_of Tool.describe (object [(Param.message, JString "fix typo")])
  = ["describe"; "-m"; "fix typo"].
Proof. reflexivity. Qed.

Example config_set_required_only :
  args_of Tool.config_set
    (object [(Param.name, JString "ui.color"); (Param.value, JString "never")])
  = ["config"; "set"; "ui.color"; "never"].
Proof. reflexivity. Qed.

Example bookmark_move_required_only :
  args_of Tool.bookmark_move
    (object [(Param.names, JArray ["a"; "b"]); (Param.revision, JString "@-")])
  = ["bookmark"; "move"; "a"; "b"; "-t"; "@-"].
Proof. reflexivity. Qed.

(** A required value is copied as it is, also when it is spelled like a
    flag. *)
Example abandon_flag_like_revision :
  args_of Tool.abandon (object [(Param.revisions, JString "--repository")])
  = ["abandon"; "--repository"].
Proof. reflexivity. Qed.

(** C5, as amended.  Take a tool, one of its optional parameters and a
    value its schema admits.  [cwd] contributes no token.  Any other
    parameter has one place in the list, between the tokens of the
    parameters before and after it, which do not depend on it; there it
    contributes nothing when it is omitted, an empty string or [false], and
    otherwise its flag followed by its value or values (the values alone
    for a positional parameter, the flag alone for [true], the text
    [toString()] gives for a number). *)
Theorem optional_parameter_tokens :
  forall t k ty v,
    In (k, z_optional ty) (schema t) ->
    conforms (z_optional ty) v = true ->
    (k = Param.cwd /\ forall p, args_of t (with_param k v p) = args_of t p)
    \/ (k <> Param.cwd
        /\ exists before s after tokens,
             slots t = before ++ s :: after
             /\ slot_param s = k
             /\ emits s v tokens
             /\ forall p,
                  args_of t (with_param k v p)
                  = subcommand t ++ render before p ++ tokens ++ render after p).
Proof.
  intros t k ty v Hin Hv.
  destruct (Param.eq_dec k Param.cwd) as [->|Hk].
  - left. split; [reflexivity|]. intros p. apply args_of_cwd.
  - right. split; [exact Hk|].
    destruct (declared_slot _ _ _ Hin Hk) as (before & s & after & Hs & <- & Hadm).
    exists before, s, after, (slot_tokens_of s v). repeat split; auto.
    + now apply emits_admitted with (ty := ty).
    + intros p. now apply args_of_with_param.
Qed.

Lemma optional_parameter_tokens_witness :
  (In (Param.to, z_optional z_string) (schema Tool.diff)
   /\ conforms (z_optional z_string) (JString "main") = true)
  /\ exists before s after tokens,
       slots Tool.diff = before ++ s :: after
       /\ slot_param s = Param.to
       /\ emits s (JString "main") tokens
       /\ forall p,
            args_of Tool.diff (with_param Param.to (JString "main") p)
            = subcommand Tool.diff ++ render before p ++ tokens ++ render after p.
Proof.
  assert (H1 : In (Param.to, z_optional z_string) (schema Tool.diff))
    by (simpl; tauto).
  assert (H2 : conforms (z_optional z_string) (JString "main") = true)
    by reflexivity.
  split; [auto|].
  destruct (optional_parameter_tokens Tool.diff Param.to z_string (JString "main") H1 H2)
    as [[E _]|[_ H]]; [discriminate E|exact H].
Defined.

Example diff_to_main :
  args_of Tool.diff
    (object [(Param.from, JString "@-"); (Param.to, JString "main");
             (Param.stat, JBoolean true)])
  = ["diff"; "-f"; "@-"; "-t"; "main"; "--stat"].
Proof. reflexivity. Qed.

(** C5 as stated fails: [bookmark-create] given a [revision] that is the
    empty string pushes no [-r] at all. *)
Lemma bookmark_create_blank_revision_no_flag :
  defined (bookmark_create_blank_revision Param.revision) = true
  /\ args_of Tool.bookmark_create bookmark_create_blank_revision
     = ["bookmark"; "create"; "feature-x"]
  /\ ~ (exists before after,
          args_of Tool.bookmark_create bookmark_create_blank_revision
          = before ++ ["-r"; str (bookmark_create_blank_revision Param.revision)]
              ++ after).
Proof.
  split; [reflexivity|]. split; [reflexivity|].
  intros (before & after & H).
  assert (Hin : In "-r" (args_of Tool.bookmark_create bookmark_create_blank_revision)).
  { rewrite H. apply in_or_app. right. now left. }
  simpl in Hin. intuition discriminate.
Qed.

Lemma array_slot_kind s ty :
  ty = z_array_string \/ ty = z_optional z_array_string ->
  slot_admits s ty = true ->
  s = Positionals (slot_param s) \/ s = OptPositionals (slot_param s)
  \/ exists flag, s = OptFlagValues flag (slot_param s).
Proof.
  intros [->| ->]; destruct s; simpl; try discriminate; eauto.
Qed.

(** C6.  An array parameter with [N] elements contributes exactly those
    [N] tokens, in their order, at its place in the list.  In [git-fetch]
    and [git-push] one shared flag token comes before them; in every other
    tool with an array parameter the elements stand alone. *)
Theorem array_parameter_tokens :
  forall t k ty,
    In (k, ty) (schema t) ->
    ty = z_array_string \/ ty = z_optional z_array_string ->
    exists before s after,
      slots t = before ++ s :: after
      /\ slot_param s = k
      /\ (shared_flag s <> [] <-> t = Tool.git_fetch \/ t = Tool.git_push)
      /\ (shared_flag s = [] \/ exists flag, shared_flag s = [flag])
      /\ forall p elements,
           args_of t (with_param k (JArray elements) p)
           = subcommand t ++ render before p
               ++ shared_flag s ++ elements ++ render after p.
Proof.
  intros t k ty Hin Hty.
  assert (Hk : k <> Param.cwd).
  { intros ->. destruct t, Hty as [->| ->]; simpl in Hin;
      intuition discriminate. }
  destruct (declared_slot _ _ _ Hin Hk) as (before & s & after & Hs & <- & Hadm).
  exists before, s, after. repeat split; auto.
  - intros Hflag.
    assert (Hs' : In s (slots t)) by (rewrite Hs; apply in_elt).
    destruct t; simpl in Hs';
      repeat (destruct Hs' as [<-|Hs']; [simpl in Hflag; try congruence|]);
      try contradiction; auto.
  - intros Ht.
    assert (Hs' : In s (slots t)) by (rewrite Hs; apply in_elt).
    destruct Ht as [->| ->]; simpl in Hs', Hin;
      repeat (destruct Hs' as [<-|Hs']; [|]); try contradiction;
      destruct Hty as [->| ->]; simpl in Hadm; try discriminate.
  - destruct s; simpl; eauto.
  - intros p elements. rewrite (args_of_with_param _ _ _ _ p (JArray elements) Hs).
    destruct (array_slot_kind _ _ Hty Hadm) as [E|[E|[flag E]]];
      rewrite E; reflexivity.
Qed.

Lemma array_parameter_tokens_witness :
  (In (Param.branches, z_optional z_array_string) (schema Tool.git_fetch)
   /\ (z_optional z_array_string = z_array_string
       \/ z_optional z_array_string = z_optional z_array_string))
  /\ exists before s after,
       slots Tool.git_fetch = before ++ s :: after
       /\ slot_param s = Param.branches
       /\ (shared_flag s <> []
           <-> Tool.git_fetch = Tool.git_fetch \/ Tool.git_fetch = Tool.git_push)
       /\ (shared_flag s = [] \/ exists flag, shared_flag s = [flag])
       /\ forall p elements,
            args_of Tool.git_fetch (with_param Param.branches (JArray elements) p)
            = subcommand Tool.git_fetch ++ render before p
                ++ shared_flag s ++ elements ++ render after p.
Proof.
  assert (H1 : In (Param.branches, z_optional z_array_string) (schema Tool.git_fetch))
    by (simpl; tauto).
  assert (H2 : z_optional z_array_string = z_array_string
               \/ z_optional z_array_string = z_optional z_array_string)
    by (right; reflexivity).
  split; [auto|].
  exact (array_parameter_tokens Tool.git_fetch Param.branches _ H1 H2).
Defined.

Example bookmark_delete_three :
  args_of Tool.bookmark_delete
    (object [(Param.names, JArray ["b"; "a"; "c"]); (Param.repoPath, JString "/r")])
  = ["bookmark"; "delete"; "b"; "a"; "c"; "--repository"; "/r"].
Proof. reflexivity. Qed.

Example git_fetch_two_branches :
  args_of Tool.git_fetch (object [(Param.branches, JArray ["main"; "dev"])])
  = ["git"; "fetch"; "--branch"; "main"; "dev"].
Proof. reflexivity. Qed.

(** C7.  [rebase] given [{ source: "@-", destination: "main" }] builds
    [rebase --source @- --destination main]. *)
Theorem rebase_example_args :
  accepts Tool.rebase rebase_example = true
  /\ rebase_example Param.repoPath = JUndefined
  /\ rebase_example Param.cwd = JUndefined
  /\ args_of Tool.rebase rebase_example
     = ["rebase"; "--source"; "@-"; "--destination"; "main"].
Proof. repeat split. Qed.

(** C8.  [bookmark-create] given [{ name: "feature-x" }] builds
    [bookmark create feature-x], and [-r] is not among its tokens. *)
Theorem bookmark_create_example_args :
  accepts Tool.bookmark_create bookmark_create_example = true
  /\ bookmark_create_example Param.revision = JUndefined
  /\ args_of Tool.bookmark_create bookmark_create_example
     = ["bookmark"; "create"; "feature-x"]
  /\ ~ In "-r" (args_of Tool.bookmark_create bookmark_create_example).
Proof.
  repeat split. simpl. intuition discriminate.
Qed.

Lemma optional_string_slot s :
  slot_admits s (z_optional z_string) = true ->
  slot_tokens_of s (JString []) = [] /\ slot_tokens_of s JUndefined = [].
Proof. destruct s; simpl; try discriminate; auto. Qed.

(** C9.  An optional string parameter given as the empty string builds the
    same argument list as leaving it out: the handler's test is on the
    value's truthiness, so neither its flag nor the value itself is
    pushed. *)
Theorem blank_string_is_omitted :
  forall t k p,
    In (k, z_optional z_string) (schema t) ->
    args_of t (with_param k (JString []) p) = args_of t (with_param k JUndefined p)
    /\ (k <> Param.cwd ->
        exists before s after,
          slots t = before ++ s :: after
          /\ slot_param s = k
          /\ args_of t (with_param k (JString []) p)
             = subcommand t ++ render before p ++ render after p).
Proof.
  intros t k p Hin.
  destruct (Param.eq_dec k Param.cwd) as [->|Hk].
  - split; [|congruence]. now rewrite !args_of_cwd.
  - destruct (declared_slot _ _ _ Hin Hk) as (before & s & after & Hs & <- & Hadm).
    destruct (optional_string_slot _ Hadm) as [Hblank Hundef].
    rewrite !(args_of_with_param _ _ _ _ p _ Hs), Hblank, Hundef.
    split; [reflexivity|]. intros _. exists before, s, after. auto.
Qed.

Lemma blank_string_is_omitted_witness :
  In (Param.revision, z_optional z_string) (schema Tool.bookmark_create)
  /\ args_of Tool.bookmark_create
       (with_param Param.revision (JString []) bookmark_create_example)
     = args_of Tool.bookmark_create
         (with_param Param.revision JUndefined bookmark_create_example).
Proof.
  assert (H : In (Param.revision, z_optional z_string) (schema Tool.bookmark_create))
    by (simpl; tauto).
  split; [exact H|].
  exact (proj1 (blank_string_is_omitted
                  Tool.bookmark_create Param.revision bookmark_create_example H)).
Defined.

Example status_blank_repoPath :
  args_of Tool.status (object [(Param.repoPath, JString [])]) = ["status"].
Proof. reflexivity. Qed.

Example diff_blank_from :
  args_of Tool.diff (object [(Param.from, JString []); (Param.to, JString "main")])
  = ["diff"; "-t"; "main"].
Proof. reflexivity. Qed.

(** C10.  [git-fetch] given [branches: []] ends its list with a lone
    [--branch], and [git-push] given [bookmarks: []] pushes a lone
    [--bookmark] where the bookmarks would have followed: an empty array is
    truthy, so the flag is pushed with no value after it. *)
Theorem empty_array_dangling_flag :
  forall p,
    (args_of Tool.git_fetch (with_param Param.branches (JArray []) p)
     = args_of Tool.git_fetch (with_param Param.branches JUndefined p) ++ ["--branch"])
    /\ (let before := render [OptFlagValue "--remote" Param.remote] p in
        let after :=
          render [OptFlag "--all" Param.all; OptFlag "--tracked" Param.tracked;
                  OptFlag "--deleted" Param.deleted;
                  OptFlag "--allow-new" Param.allowNew;
                  OptFlagValue "--repository" Param.repoPath] p in
        args_of Tool.git_push (with_param Param.bookmarks (JArray []) p)
        = ["git"; "push"] ++ before ++ ["--bookmark"] ++ after
        /\ args_of Tool.git_push (with_param Param.bookmarks JUndefined p)
           = ["git"; "push"] ++ before ++ after).
Proof.
  intros p. split; [|split].
  - rewrite !(args_of_with_param Tool.git_fetch
                [OptFlagValue "--remote" Param.remote;
                 OptFlagValue "--repository" Param.repoPath]
                (OptFlagValues "--branch" Param.branches) [] p _ eq_refl).
    simpl. rewrite !app_nil_r, <- !app_assoc. reflexivity.
  - exact (args_of_with_param Tool.git_push
             [OptFlagValue "--remote" Param.remote]
             (OptFlagValues "--bookmark" Param.bookmarks) _ p _ eq_refl).
  - exact (args_of_with_param Tool.git_push
             [OptFlagValue "--remote" Param.remote]
             (OptFlagValues "--bookmark" Param.bookmarks) _ p _ eq_refl).
Qed.

Example git_fetch_no_branches :
  args_of Tool.git_fetch (object [(Param.branches, JArray [])])
  = ["git"; "fetch"; "--branch"].
Proof. reflexivity. Qed.

Example git_push_no_bookmarks :
  args_of Tool.git_push
    (object [(Param.bookmarks, JArray []); (Param.all, JBoolean true)])
  = ["git"; "push"; "--bookmark"; "--all"].
Proof. reflexivity. Qed.

(** * Further properties of the code *)

(** ** What the caller of a tool gets back *)

Lemma trim_idempotent (s : jsstring) : trim (trim s) = trim s.
Proof.
  symmetry. apply trimmed_unique.
  destruct (trim_trimmed s) as (l & r & _ & _ & _ & Hb & He).
  exists [], []. rewrite app_nil_r. auto.
Qed.

Lemma trim_error_line (d : jsstring) :
  d <> [] -> trim d = d -> trim ("Error: " ++ d) = "Error: " ++ d.
Proof.
  intros Hd Ht. symmetry. apply trimmed_unique.
  destruct (trim_trimmed d) as (l & r & _ & _ & _ & _ & He).
  rewrite Ht in He.
  exists [], []. rewrite app_nil_r. repeat split; auto.
  rewrite rev_app_distr, begins_app; [exact He|].
  intros E. apply (f_equal (@rev N)) in E. rewrite rev_involutive in E.
  contradiction.
Qed.

(** X1.  Whatever the subprocess does, a tool call returns one content
    block of type [text]: the trimmed standard output of [jj] run with the
    handler's arguments and working directory when the promise is
    fulfilled, and a text that begins with [Error: ] when it is rejected. *)
Theorem call_tool_text_block :
  forall execFileAsync t p,
    exists output,
      call_tool execFileAsync t p
      = Return {| content := [ {| type := "text"; text := output |} ] |}
      /\ match execFileAsync JJ_COMMAND (args_of t p) (call_cwd (handler t p)) with
         | Return result => output = trim (stdout result)
         | Throw error => exists diagnostic, output = "Error: " ++ diagnostic
         end.
Proof.
  intros exec t p. unfold call_tool, args_of, runJJCommand.
  destruct (exec JJ_COMMAND (call_args (handler t p)) (call_cwd (handler t p)))
    as [result|error]; simpl.
  - eauto.
  - destruct (stderr error) as [[|c rest]|]; simpl; eauto.
Qed.

(** X2.  On success the returned text has no whitespace left at either
    end, so trimming it again changes nothing, and it is the empty text
    exactly when the standard output was nothing but whitespace. *)
Theorem runJJCommand_success_blank :
  forall execFileAsync args cwd result,
    execFileAsync JJ_COMMAND args cwd = Return result ->
    exists output,
      runJJCommand execFileAsync args cwd = Return output
      /\ trim output = output
      /\ (output = [] <-> forallb isWhiteSpace (stdout result) = true).
Proof.
  intros exec args cwd result H.
  exists (trim (stdout result)). split; [|split].
  - now apply runJJCommand_fulfilled.
  - apply trim_idempotent.
  - split; [apply trim_nothing_whitespace | apply whitespace_trims_to_nothing].
Qed.

Lemma runJJCommand_success_blank_witness :
  exits_zero [LF; 0x20%N; LF] JJ_COMMAND ["status"] None
  = Return {| stdout := [LF; 0x20%N; LF]; stdout_stderr := [] |}
  /\ exists output,
       runJJCommand (exits_zero [LF; 0x20%N; LF]) ["status"] None = Return output
       /\ trim output = output
       /\ (output = [] <-> forallb isWhiteSpace [LF; 0x20%N; LF] = true).
Proof.
  split; [reflexivity|].
  exact (runJJCommand_success_blank
           (exits_zero [LF; 0x20%N; LF]) ["status"] None
           {| stdout := [LF; 0x20%N; LF]; stdout_stderr := [] |} eq_refl).
Defined.

(** X3.  The returned text alone does not tell a failure from a success:
    a run that fails with a non-blank standard error returns the same text
    as a run that succeeds and prints [Error: ] followed by that
    diagnostic. *)
Theorem runJJCommand_failure_like_success :
  forall failing succeeding args cwd error text result,
    failing JJ_COMMAND args cwd = Throw error ->
    stderr error = Some text ->
    trim text <> [] ->
    succeeding JJ_COMMAND args cwd = Return result ->
    stdout result = "Error: " ++ trim text ->
    runJJCommand succeeding args cwd = runJJCommand failing args cwd.
Proof.
  intros failing succeeding args cwd error text result Hf Herr Hd Hs Hout.
  rewrite (runJJCommand_fulfilled _ _ _ _ Hs), Hout.
  destruct text as [|c rest]; [contradiction Hd; reflexivity|].
  rewrite (runJJCommand_rejected_stderr _ _ _ _ _ _ Hf Herr).
  f_equal. apply trim_error_line; [exact Hd|apply trim_idempotent].
Qed.

Lemma runJJCommand_failure_like_success_witness :
  let text := "No such revision" ++ [LF] in
  let error := {| message := "Command failed: jj show" ++ [LF] ++ text;
                  stderr := Some text |} in
  let result := {| stdout := "Error: No such revision"; stdout_stderr := [] |} in
  (exits_nonzero text JJ_COMMAND ["show"] None = Throw error
   /\ stderr error = Some text
   /\ trim text <> []
   /\ exits_zero "Error: No such revision" JJ_COMMAND ["show"] None = Return result
   /\ stdout result = "Error: " ++ trim text)
  /\ runJJCommand (exits_zero "Error: No such revision") ["show"] None
     = runJJCommand (exits_nonzero text) ["show"] None.
Proof.
  intros text error result.
  assert (H1 : exits_nonzero text JJ_COMMAND ["show"] None = Throw error)
    by reflexivity.
  assert (H2 : stderr error = Some text) by reflexivity.
  assert (H3 : trim text <> []) by (vm_compute; discriminate).
  assert (H4 : exits_zero "Error: No such revision" JJ_COMMAND ["show"] None
               = Return result) by reflexivity.
  assert (H5 : stdout result = "Error: " ++ trim text) by reflexivity.
  split; [auto|].
  exact (runJJCommand_failure_like_success
           (exits_nonzero text) (exits_zero "Error: No such revision")
           ["show"] None error text result H1 H2 H3 H4 H5).
Defined.

(** ** The working directory *)

(** X4.  Every tool that declares [cwd] hands it to [runJJCommand] as it
    was given, the empty string included; [git-clone] and [init], the two
    tools without a [cwd], always run [jj] without one. *)
Theorem cwd_forwarded :
  forall t p,
    call_cwd (handler t p)
    = (if declares t Param.cwd then optional_str (p Param.cwd) else None)
    /\ (declares t Param.cwd = false <-> t = Tool.git_clone \/ t = Tool.init).
Proof.
  intros t p. destruct t; simpl; split; try reflexivity;
    split; intros H; try discriminate; auto;
    destruct H as [H|H]; discriminate H.
Qed.

Example status_blank_cwd :
  handler Tool.status (object [(Param.repoPath, JString []); (Param.cwd, JString [])])
  = {| call_args := ["status"]; call_cwd := Some [] |}.
Proof. reflexivity. Qed.

(** ** The registry *)

(** X5.  No two tools are registered under the same name. *)
Theorem tool_name_injective :
  forall t1 t2, tool_name t1 = tool_name t2 -> t1 = t2.
Proof.
  intros t1 t2 H. destruct t1; destruct t2; try reflexivity; discriminate H.
Qed.

Lemma tool_name_injective_witness :
  tool_name Tool.git_push = tool_name Tool.git_push /\ Tool.git_push = Tool.git_push.
Proof.
  split; [reflexivity|].
  exact (tool_name_injective Tool.git_push Tool.git_push eq_refl).
Defined.

(** X6.  No two tools run the same [jj] subcommand. *)
Theorem subcommand_injective :
  forall t1 t2, subcommand t1 = subcommand t2 -> t1 = t2.
Proof.
  intros t1 t2 H. destruct t1; destruct t2; try reflexivity; discriminate H.
Qed.

Lemma subcommand_injective_witness :
  subcommand Tool.init = subcommand Tool.init /\ Tool.init = Tool.init.
Proof.
  split; [reflexivity|].
  exact (subcommand_injective Tool.init Tool.init eq_refl).
Defined.

(** X7.  A tool's name is its subcommand with the words joined by
    hyphens; the one exception is [init], which runs [git init]. *)
Theorem tool_name_is_subcommand :
  forall t,
    (t <> Tool.init -> tool_name t = join "-" (subcommand t))
    /\ (t = Tool.init -> tool_name t = "init" /\ subcommand t = ["git"; "init"]).
Proof.
  intros t. destruct t; split; intros H; try discriminate H;
    try reflexivity; try contradiction; auto.
Qed.

Lemma tool_name_is_subcommand_witness :
  Tool.git_remote_set_url <> Tool.init
  /\ tool_name Tool.git_remote_set_url
     = join "-" (subcommand Tool.git_remote_set_url).
Proof.
  assert (H : Tool.git_remote_set_url <> Tool.init) by discriminate.
  split; [exact H|].
  exact (proj1 (tool_name_is_subcommand Tool.git_remote_set_url) H).
Defined.

(** ** Where the tokens come from *)

Lemma slots_are_typed t : slots_typed t = true.
Proof. destruct t; reflexivity. Qed.

Lemma fixed_tokens_nonempty t : forallb nonempty (fixed_tokens t) = true.
Proof. destruct t; reflexivity. Qed.

Lemma cwd_is_optional_string t ty :
  In (Param.cwd, ty) (schema t) -> ty = z_optional z_string.
Proof.
  destruct t; simpl; intros H;
    repeat (destruct H as [H|H]; [inversion H; reflexivity|]);
    contradiction.
Qed.

(** The field a slot reads, and the value an accepted object has there. *)
Lemma accepted_slot_value t p s :
  accepts t p = true -> In s (slots t) ->
  exists ty,
    In (slot_param s, ty) (schema t)
    /\ slot_admits s ty = true
    /\ conforms ty (p (slot_param s)) = true.
Proof.
  intros Hacc Hs. pose proof (slots_are_typed t) as H.
  unfold slots_typed in H. rewrite forallb_forall in H.
  specialize (H _ Hs). apply existsb_exists in H as ([k ty] & Hin & H).
  simpl in H. apply andb_true_iff in H as [Hk Hadm].
  apply Param_eqb_eq in Hk. subst k.
  exists ty. repeat split; auto.
  unfold accepts in Hacc. rewrite forallb_forall in Hacc.
  exact (Hacc _ Hin).
Qed.

Lemma in_render l p token :
  In token (render l p) <-> exists s, In s l /\ In token (slot_tokens p s).
Proof. unfold render. apply in_flat_map. Qed.

Lemma decimal_nonempty n : decimal n <> [].
Proof.
  assert (Hd : forall u, u <> Decimal.Nil -> digits u <> [])
    by (intros [|u|u|u|u|u|u|u|u|u|u] Hu; simpl; congruence).
  unfold decimal. destruct n as [|q|q]; simpl; try discriminate.
  apply Hd, DecimalPos.Unsigned.to_uint_nonnil.
Qed.

Lemma number_text_nonempty a : number_text a <> [].
Proof.
  unfold number_text.
  destruct (length (decimal (shortest (to_double a))) <=? 21)%nat.
  - apply decimal_nonempty.
  - destruct (rev (drop_zeros (rev (decimal (shortest (to_double a)))))).
    + apply decimal_nonempty.
    + discriminate.
Qed.

Lemma toString_nonempty n : toString n <> [].
Proof.
  destruct n as [|q|q]; unfold toString;
    [discriminate | apply number_text_nonempty | discriminate].
Qed.

Lemma admitted_token s ty v token :
  slot_admits s ty = true -> conforms ty v = true ->
  In token (slot_tokens_of s v) ->
  In token (slot_required_flag s ++ slot_optional_flag s) \/ holds v token.
Proof.
  unfold holds.
  destruct s, ty as [| | | | |options|[| | | | |options|inner]];
    simpl; try discriminate; intros _ Hv;
    destruct v as [|[|c r]|n|[|]|l]; simpl in *; try discriminate;
    try tauto;
    try (destruct (n =? 0)%Z; simpl);
    intuition (subst; eauto).
Qed.

(** X8.  Every argument list begins with the tool's subcommand words,
    which no parameter can change or precede, and none of those words
    begins with a hyphen. *)
Theorem args_begin_with_subcommand :
  forall t p,
    exists rest,
      args_of t p = subcommand t ++ rest
      /\ subcommand t <> []
      /\ forallb (fun word => negb (begins_with_hyphen word)) (subcommand t) = true.
Proof.
  intros t p. exists (render (slots t) p). split; [apply args_of_layout|].
  destruct t; split; (discriminate || reflexivity).
Qed.

(** X9.  For an object its schema accepts, a handler invents no token:
    each one is either written in the handler (a subcommand word or a
    flag) or held by one of the tool's declared parameters other than
    [cwd], as a string, an array element or the decimal text of a number. *)
Theorem token_provenance :
  forall t p token,
    accepts t p = true ->
    In token (args_of t p) ->
    In token (fixed_tokens t)
    \/ exists k,
         declares t k = true /\ k <> Param.cwd /\ holds (p k) token.
Proof.
  intros t p token Hacc Hin. unfold fixed_tokens.
  rewrite args_of_layout in Hin. apply in_app_or in Hin as [Hin|Hin].
  - left. apply in_or_app. now left.
  - apply in_render in Hin as (s & Hs & Htok).
    destruct (accepted_slot_value _ _ _ Hacc Hs) as (ty & Hfield & Hadm & Hv).
    destruct (admitted_token _ _ _ _ Hadm Hv Htok) as [Hflag|Hheld].
    + left. apply in_or_app. right.
      apply in_app_or in Hflag as [Hflag|Hflag]; apply in_or_app;
        [left|right]; apply in_flat_map; eauto.
    + right. exists (slot_param s). repeat split; auto.
      * apply existsb_exists. exists (slot_param s, ty). split; [exact Hfield|].
        now apply Param_eqb_eq.
      * intros E. apply (cwd_has_no_slot t). rewrite <- E. now apply in_map.
Qed.

Lemma token_provenance_witness :
  (accepts Tool.rebase rebase_example = true
   /\ In "main" (args_of Tool.rebase rebase_example))
  /\ (In "main" (fixed_tokens Tool.rebase)
      \/ exists k,
           declares Tool.rebase k = true /\ k <> Param.cwd
           /\ holds (rebase_example k) "main").
Proof.
  assert (H1 : accepts Tool.rebase rebase_example = true) by reflexivity.
  assert (H2 : In "main" (args_of Tool.rebase rebase_example))
    by (simpl; tauto).
  split; [auto|].
  exact (token_provenance Tool.rebase rebase_example "main" H1 H2).
Defined.

Lemma required_slot_kind s ty :
  is_optional ty = false -> slot_admits s ty = true ->
  (ty = z_array_string /\ s = Positionals (slot_param s))
  \/ (ty <> z_array_string
      /\ (s = Positional (slot_param s)
          \/ exists flag, s = FlagValue flag (slot_param s))).
Proof.
  destruct s, ty as [| | | | |options|inner]; simpl; try discriminate;
    intros _ _;
    try (left; split; reflexivity);
    right; split; try discriminate; eauto.
Qed.

(** X10.  A required parameter is never left out of the argument list:
    whatever else the object holds, the value of a required string is one
    of the tokens, and every element of a required array is. *)
Theorem required_values_present :
  forall t k ty p,
    In (k, ty) (schema t) ->
    is_optional ty = false ->
    match ty with
    | z_array_string => incl (spread (p k)) (args_of t p)
    | _ => In (str (p k)) (args_of t p)
    end.
Proof.
  intros t k ty p Hin Hreq.
  assert (Hk : k <> Param.cwd).
  { intros ->. apply cwd_is_optional_string in Hin. subst ty. discriminate. }
  destruct (declared_slot _ _ _ Hin Hk) as (before & s & after & Hs & <- & Hadm).
  assert (Hs' : In s (slots t)) by (rewrite Hs; apply in_elt).
  assert (Htok : forall token,
             In token (slot_tokens p s) -> In token (args_of t p)).
  { intros token H. rewrite args_of_layout. apply in_or_app. right.
    apply in_render. eauto. }
  destruct (required_slot_kind _ _ Hreq Hadm) as [[-> E]|[Hty [E|[flag E]]]].
  - intros token H. apply Htok. rewrite E. exact H.
  - assert (In (str (p (slot_param s))) (args_of t p))
      by (apply Htok; rewrite E; simpl; unfold slot_tokens; simpl; tauto).
    destruct ty; try assumption. congruence.
  - assert (In (str (p (slot_param s))) (args_of t p))
      by (apply Htok; rewrite E; simpl; unfold slot_tokens; simpl; tauto).
    destruct ty; try assumption. congruence.
Qed.

Lemma required_values_present_witness :
  (In (Param.names, z_array_string) (schema Tool.bookmark_move)
   /\ is_optional z_array_string = false)
  /\ incl ["a"; "b"]
       (args_of Tool.bookmark_move
          (object [(Param.names, JArray ["a"; "b"]); (Param.revision, JString "@")])).
Proof.
  assert (H1 : In (Param.names, z_array_string) (schema Tool.bookmark_move))
    by (simpl; tauto).
  assert (H2 : is_optional z_array_string = false) by reflexivity.
  split; [auto|].
  exact (required_values_present Tool.bookmark_move Param.names z_array_string
           (object [(Param.names, JArray ["a"; "b"]); (Param.revision, JString "@")])
           H1 H2).
Defined.

(** X11.  A handler reads the parameters its schema declares and nothing
    else: two objects that agree on them get the same argument list and the
    same working directory. *)
Theorem handler_reads_declared :
  forall t p q,
    (forall k, declares t k = true -> p k = q k) ->
    handler t p = handler t q.
Proof.
  intros t p q H.
  destruct t; unfold handler; autounfold with handlers; cbv zeta;
    repeat match goal with
           | |- context [p ?k] => rewrite (H k) by reflexivity
           end;
    reflexivity.
Qed.

Lemma handler_reads_declared_witness :
  (forall k, declares Tool.rebase k = true -> rebase_example k = rebase_example_with_stat k)
  /\ handler Tool.rebase rebase_example = handler Tool.rebase rebase_example_with_stat.
Proof.
  assert (H : forall k, declares Tool.rebase k = true ->
                        rebase_example k = rebase_example_with_stat k)
    by (intros k; destruct k; simpl; intros E; try discriminate E; reflexivity).
  split; [exact H|].
  exact (handler_reads_declared Tool.rebase rebase_example rebase_example_with_stat H).
Defined.

Lemma number_slot_tokens s ty n :
  slot_admits s (z_optional ty) = true ->
  conforms (z_optional ty) (JNumber n) = true ->
  exists flag,
    slot_optional_flag s = [flag]
    /\ slot_tokens_of s (JNumber n) = [flag; toString n].
Proof.
  destruct s, ty; simpl; try discriminate; intros _ H; eauto.
  destruct (Z.eqb_spec n 0); [subst; discriminate|]. simpl. eauto.
Qed.

(** X12.  A number the schema admits is never dropped: the parameter's
    own flag ([-n] for [limit], [--depth] for [depth], [--context] for
    [context]) and the number's text are pushed, one after the other, at
    the parameter's place in the list, between the tokens of the parameters
    before and after it.  Where the handler tests the number's truthiness
    the schema admits no zero, and where the schema admits zero
    ([context]) the handler tests for [undefined]. *)
Theorem admitted_number_pushed :
  forall t k ty n,
    In (k, z_optional ty) (schema t) ->
    conforms (z_optional ty) (JNumber n) = true ->
    exists before s after flag,
      slots t = before ++ s :: after
      /\ slot_param s = k
      /\ slot_optional_flag s = [flag]
      /\ ((k = Param.limit /\ flag = "-n")
          \/ (k = Param.depth /\ flag = "--depth")
          \/ (k = Param.context /\ flag = "--context"))
      /\ forall p,
           args_of t (with_param k (JNumber n) p)
           = subcommand t ++ render before p ++ [flag; toString n] ++ render after p.
Proof.
  intros t k ty n Hin Hv.
  assert (Hk : k <> Param.cwd).
  { intros ->. apply cwd_is_optional_string in Hin.
    inversion Hin; subst. discriminate. }
  destruct (declared_slot _ _ _ Hin Hk) as (before & s & after & Hs & <- & Hadm).
  destruct (number_slot_tokens _ _ _ Hadm Hv) as (flag & Hflag & Htok).
  exists before, s, after, flag. repeat split; auto.
  - assert (Hs' : In s (slots t)) by (rewrite Hs; apply in_elt).
    assert (Hkind : (exists f k, s = OptFlagNumber f k)
                    \/ (exists f k, s = OptFlagNumberDefined f k)).
    { clear - Hadm Hv. destruct s, ty; simpl in *; try discriminate; eauto. }
    clear - Hs' Hflag Hkind.
    destruct t; simpl in Hs';
      repeat (destruct Hs' as [<-|Hs'];
              [try (destruct Hkind as [(f & k & E)|(f & k & E)]; discriminate E)|]);
      try contradiction;
      injection Hflag as <-; simpl; tauto.
  - intros p. rewrite (args_of_with_param _ _ _ _ p _ Hs), Htok. reflexivity.
Qed.

Lemma admitted_number_pushed_witness :
  (In (Param.context, z_optional z_number_int_nonnegative) (schema Tool.diff)
   /\ conforms (z_optional z_number_int_nonnegative) (JNumber 0) = true)
  /\ exists before s after flag,
       slots Tool.diff = before ++ s :: after
       /\ slot_param s = Param.context
       /\ slot_optional_flag s = [flag]
       /\ ((Param.context = Param.limit /\ flag = "-n")
           \/ (Param.context = Param.depth /\ flag = "--depth")
           \/ (Param.context = Param.context /\ flag = "--context"))
       /\ forall p,
            args_of Tool.diff (with_param Param.context (JNumber 0) p)
            = subcommand Tool.diff ++ render before p
                ++ [flag; toString 0] ++ render after p.
Proof.
  assert (H1 : In (Param.context, z_optional z_number_int_nonnegative)
                 (schema Tool.diff)) by (simpl; tauto).
  assert (H2 : conforms (z_optional z_number_int_nonnegative) (JNumber 0) = true)
    by reflexivity.
  split; [auto|].
  exact (admitted_number_pushed Tool.diff Param.context _ 0%Z H1 H2).
Defined.

Example diff_context_zero :
  args_of Tool.diff (object [(Param.context, JNumber 0)]) = ["diff"; "--context"; "0"].
Proof. reflexivity. Qed.

Example git_clone_depth :
  args_of Tool.git_clone
    (object [(Param.source, JString "https://example.org/r.git");
             (Param.depth, JNumber 1)])
  = ["git"; "clone"; "https://example.org/r.git"; "--depth"; "1"].
Proof. reflexivity. Qed.

Example log_limit_large :
  conforms (z_optional z_number_int_positive) (JNumber (10 ^ 21)) = true
  /\ representable (10 ^ 21) = true
  /\ args_of Tool.log (object [(Param.limit, JNumber (10 ^ 21))]) = ["log"; "-n"; "1e+21"].
Proof. repeat split. Qed.

Example toString_beyond_safe_integers :
  toString (2 ^ 53) = "9007199254740992"
  /\ toString (2 ^ 64) = "18446744073709552000"
  /\ toString (2 ^ 70) = "1.1805916207174113e+21"
  /\ representable 99999999999999991611392 = true
  /\ toString 99999999999999991611392 = "1e+23"
  /\ representable (2 ^ 53 + 1) = false
  /\ toString (2 ^ 53 + 1) = "9007199254740992"
  /\ toString (-42) = "-42".
Proof. repeat split. Qed.

Lemma admitted_empty_token s ty v :
  slot_admits s ty = true -> conforms ty v = true ->
  In [] (slot_tokens_of s v) ->
  In [] (slot_required_flag s ++ slot_optional_flag s)
  \/ (is_optional ty = false /\ v = JString [])
  \/ (exists elements, v = JArray elements /\ In [] elements).
Proof.
  destruct s, ty as [| | | | |options|[| | | | |options|inner]];
    simpl; try discriminate; intros _ Hv;
    destruct v as [|[|c r]|n|[|]|l]; simpl in *; try discriminate;
    try tauto;
    try (destruct (n =? 0)%Z; simpl);
    try (pose proof (toString_nonempty n));
    intuition (try discriminate; try congruence; eauto).
Qed.

Lemma fixed_token_nonempty t token : In token (fixed_tokens t) -> token <> [].
Proof.
  intros Hin ->. pose proof (fixed_tokens_nonempty t) as H.
  rewrite forallb_forall in H. specialize (H _ Hin). discriminate H.
Qed.

Lemma declared_field t k : declares t k = true -> exists ty, In (k, ty) (schema t).
Proof.
  intros H. apply existsb_exists in H as ([k' ty] & Hin & E).
  apply Param_eqb_eq in E. simpl in E. subst k'. eauto.
Qed.

(** X13.  For an object its schema accepts, the argument list contains an
    empty token exactly when the caller passed one: as the value of a
    required string parameter, or as an element of an array parameter.
    Optional strings, flags and numbers never produce one. *)
Theorem empty_token_origin :
  forall t p,
    accepts t p = true ->
    (In [] (args_of t p)
     <-> (exists k ty,
            In (k, ty) (schema t) /\ is_optional ty = false /\ p k = JString [])
         \/ (exists k elements,
               declares t k = true /\ p k = JArray elements /\ In [] elements)).
Proof.
  intros t p Hacc. split.
  - intros Hin. rewrite args_of_layout in Hin.
    apply in_app_or in Hin as [Hin|Hin].
    + exfalso. apply (fixed_token_nonempty t []); [|reflexivity].
      unfold fixed_tokens. apply in_or_app. now left.
    + apply in_render in Hin as (s & Hs & Htok).
      destruct (accepted_slot_value _ _ _ Hacc Hs) as (ty & Hfield & Hadm & Hv).
      destruct (admitted_empty_token _ _ _ Hadm Hv Htok)
        as [Hflag|[[Hreq Hempty]|(elements & Harr & Hel)]].
      * exfalso. apply (fixed_token_nonempty t []); [|reflexivity].
        unfold fixed_tokens. apply in_or_app. right.
        apply in_app_or in Hflag as [Hflag|Hflag]; apply in_or_app;
          [left|right]; apply in_flat_map; eauto.
      * left. exists (slot_param s), ty. auto.
      * right. exists (slot_param s), elements. repeat split; auto.
        apply existsb_exists. exists (slot_param s, ty). split; [exact Hfield|].
        now apply Param_eqb_eq.
  - assert (Hconf : forall k ty, In (k, ty) (schema t) -> conforms ty (p k) = true).
    { intros k ty Hin. unfold accepts in Hacc. rewrite forallb_forall in Hacc.
      exact (Hacc _ Hin). }
    assert (Hslot : forall s token,
               In s (slots t) -> In token (slot_tokens p s) ->
               In token (args_of t p)).
    { intros s token Hs H. rewrite args_of_layout. apply in_or_app. right.
      apply in_render. eauto. }
    intros [(k & ty & Hin & Hreq & Hempty)|(k & elements & Hdecl & Harr & Hel)].
    + assert (Hk : k <> Param.cwd).
      { intros ->. apply cwd_is_optional_string in Hin. subst ty. discriminate. }
      destruct (declared_slot _ _ _ Hin Hk) as (before & s & after & Hs & <- & Hadm).
      pose proof (Hconf _ _ Hin) as Hv. rewrite Hempty in Hv.
      apply (Hslot s); [rewrite Hs; apply in_elt|].
      unfold slot_tokens. rewrite Hempty.
      destruct s, ty as [| | | | |options|inner]; simpl in *;
        try discriminate; tauto.
    + destruct (declared_field _ _ Hdecl) as (ty & Hin).
      pose proof (Hconf _ _ Hin) as Hv. rewrite Harr in Hv.
      assert (Hk : k <> Param.cwd).
      { intros ->. apply cwd_is_optional_string in Hin. subst ty. discriminate. }
      destruct (declared_slot _ _ _ Hin Hk) as (before & s & after & Hs & <- & Hadm).
      apply (Hslot s); [rewrite Hs; apply in_elt|].
      unfold slot_tokens. rewrite Harr.
      destruct s, ty as [| | | | |options|[| | | | |options|inner]]; simpl in *;
        try discriminate; tauto.
Qed.

Lemma empty_token_origin_witness :
  let p := object [(Param.revisions, JString [])] in
  accepts Tool.abandon p = true /\ In [] (args_of Tool.abandon p).
Proof.
  intros p.
  assert (H : accepts Tool.abandon p = true) by reflexivity.
  split; [exact H|].
  apply (proj2 (empty_token_origin Tool.abandon p H)).
  left. exists Param.revisions, z_string.
  repeat split. simpl. tauto.
Defined.
